(** * RAG_IPS: a shallow embedding of the retrieval pipeline

    The development follows the Python sources module by module:
    [config.py], [document_processor.py], [vector_database.py],
    [rag_service.py] and [api.py].  Python strings are sequences of
    Unicode code points, dictionaries whose key set depends on the path
    taken are finite maps, and the methods that touch the collection, the
    embedding model or the LMStudio backend run in a state-and-exception
    monad over an explicit [World]. *)

From Stdlib Require Import ZArith QArith Lia Ascii String.
From stdpp Require Import base option list sorting gmap strings pretty.

Local Open Scope Z_scope.

(** ** Python strings *)

Module Py.

(** A [str] is a sequence of code points; [len] counts the items of a
    sequence, code points for a [str]. *)
Abbreviation char := N (only parsing).
Abbreviation str := (list N) (only parsing).

Definition len {A} (s : list A) : Z := Z.of_nat (length s).

(** Decoder for the UTF-8 literals of the sources. *)
Definition byte_of (a : ascii) : N := N_of_ascii a.

Definition cont (b : N) : N := N.land b 63.

Fixpoint utf8_bytes (bs : list N) : str :=
  match bs with
  | [] => []
  | b :: rest =>
      if (b <? 128)%N then b :: utf8_bytes rest
      else if (b <? 224)%N then
        match rest with
        | b1 :: rest' =>
            (N.shiftl (N.land b 31) 6 + cont b1)%N :: utf8_bytes rest'
        | _ => []
        end
      else if (b <? 240)%N then
        match rest with
        | b1 :: b2 :: rest' =>
            (N.shiftl (N.land b 15) 12 + N.shiftl (cont b1) 6 + cont b2)%N
              :: utf8_bytes rest'
        | _ => []
        end
      else
        match rest with
        | b1 :: b2 :: b3 :: rest' =>
            (N.shiftl (N.land b 7) 18 + N.shiftl (cont b1) 12
             + N.shiftl (cont b2) 6 + cont b3)%N :: utf8_bytes rest'
        | _ => []
        end
  end.

Definition u (s : string) : str :=
  utf8_bytes (byte_of <$> list_ascii_of_string s).

(** Line feed, written [\n] in the sources. *)
Definition nl : str := [10%N].

(** [Py_UNICODE_ISSPACE]: the characters matched by [\s] in a [str]
    pattern and removed by [str.strip()]. *)
Definition isspace (c : char) : bool :=
  ((9 <=? c) && (c <=? 13) || (28 <=? c) && (c <=? 32)
   || (c =? 133) || (c =? 160) || (c =? 5760)
   || (8192 <=? c) && (c <=? 8202)
   || (c =? 8232) || (c =? 8233) || (c =? 8239) || (c =? 8287)
   || (c =? 12288))%N.

Fixpoint lstrip (s : str) : str :=
  match s with
  | [] => []
  | c :: s' => if isspace c then lstrip s' else s
  end.

Definition rstrip (s : str) : str := reverse (lstrip (reverse s)).

(** [s.strip()] *)
Definition strip (s : str) : str := rstrip (lstrip s).

(** [sep.join(parts)] *)
Fixpoint join (sep : str) (parts : list str) : str :=
  match parts with
  | [] => []
  | [p] => p
  | p :: ps => p ++ sep ++ join sep ps
  end.

(** [str(n)] for a non-negative integer. *)
Definition of_string (s : string) : str := byte_of <$> list_ascii_of_string s.
Definition str_of_nat (n : nat) : str := of_string (pretty n).
Definition str_of_Z (z : Z) : str := of_string (pretty z).

(** Comparison of two strings code point by code point, the order
    [sorted] puts strings in. *)
Fixpoint str_leb (s t : str) : bool :=
  match s, t with
  | [], _ => true
  | _ :: _, [] => false
  | a :: s', b :: t' =>
      if (a <? b)%N then true
      else if (a =? b)%N then str_leb s' t'
      else false
  end.

Definition str_le : relation (list N) := fun s t => str_leb s t = true.

#[global] Instance str_le_dec : RelDecision str_le :=
  fun s t => decide (str_leb s t = true).

(** [sorted(l)] on a list of strings. *)
Definition sorted (l : list str) : list str := merge_sort str_le l.

End Py.

Import Py.

(** ** config.py *)

Module Config.

Definition LMSTUDIO_API_KEY : str := u "lm-studio".
Definition LMSTUDIO_MODEL : str := u "qwen2.5-coder-14b-instruct".
Definition CHUNK_SIZE : Z := 1000.
Definition CHUNK_OVERLAP : Z := 200.
Definition MAX_RETRIEVED_DOCS : Z := 5.
Definition MAX_CONTEXT_LENGTH : nat := 4000.

End Config.

Import Config.

(** ** Data model *)

(** The [metadata] dictionary attached to every chunk. *)
Record Metadata := {
  source : str;
  filename : str;
  chunk_id : nat;
  total_chunks : nat
}.

(** A processed chunk: [{'content': ..., 'metadata': {...}}]. *)
Record Chunk := {
  content : str;
  metadata : Metadata
}.

(** A search hit as built by [VectorDatabase.search]. *)
Record Hit := {
  hit_content : str;
  hit_metadata : Metadata;
  similarity_score : Q;
  rank : nat
}.

(** One record of the ChromaDB collection. *)
Record Entry := {
  entry_id : str;
  entry_embedding : list Q;
  entry_document : str;
  entry_metadata : Metadata
}.

(** Values stored in the dictionaries returned by [RAGService.query]. *)
Inductive Value :=
| VStr (s : str)
| VInt (z : Z)
| VList (l : list str).

(** The JSON body posted to [/chat/completions]. *)
Record Payload := {
  model : str;
  messages : list (str * str);
  temperature : Q;
  max_tokens : Z;
  stream : bool
}.

(** Exceptions that cross function boundaries. *)
Inductive Exn :=
| FileNotFoundError (msg : str)
| DuplicateIDError
| InvalidNResults (n : Z)
| ConnectError
| OtherError (msg : str)
| ValidationError (field : string)
| HTTPException (status_code : Z) (detail : str).

(** What an [httpx] call produces: a response, or an exception.  The two
    [json_*] fields stand for the outcome of decoding the body and
    following the keys the caller reads:
    [[m['id'] for m in response.json()['data']]] and
    [response.json()['choices'][0]['message']['content']]. *)
Record Response := {
  status : Z;
  text : str;
  json_model_ids : Exn + list str;
  json_completion : Exn + str
}.

Definition HttpResult : Type := Exn + Response.

(** The LMStudio server as seen through its three endpoints. *)
Record Backend := {
  health : HttpResult;
  models : HttpResult;
  chat : Payload -> HttpResult
}.

(** Observable effects, in the order they happen. *)
Inductive Event :=
| FileRead (path : str)
| Encode (texts : list str)
| CollectionAdd (ids : list str)
| CollectionQuery (n_results : Z)
| CollectionGet
| CollectionCount
| CollectionReset
| HttpGet (path : str)
| HttpPost (path : str) (payload : Payload) (headers : list (str * str)).

(** Everything the services own or talk to.  [api.py] builds a
    [RAGService] and a separate [VectorDatabase]; both open the same
    persistent collection, hence the single [collection] field. *)
Record World := {
  files : gmap (list N) (list N);
  collection : list Entry;
  lmstudio : Backend;
  available_models : list str;
  current_model : option str;
  trace : list Event
}.

(** ** State and exceptions *)

Definition M (A : Type) : Type := World -> (Exn + A) * World.

#[global] Instance M_ret : MRet M := fun A x w => (inr x, w).

#[global] Instance M_bind : MBind M := fun A B f m w =>
  match m w with
  | (inr x, w') => f x w'
  | (inl e, w') => (inl e, w')
  end.

Definition raise {A} (e : Exn) : M A := fun w => (inl e, w).

(** [try: m except Exception as e: h e] *)
Definition try_except {A} (m : M A) (h : Exn -> M A) : M A := fun w =>
  match m w with
  | (inl e, w') => h e w'
  | r => r
  end.

Definition get_world : M World := fun w => (inr w, w).

Definition emit (e : Event) : M unit := fun w =>
  (inr tt,
   {| files := files w; collection := collection w; lmstudio := lmstudio w;
      available_models := available_models w;
      current_model := current_model w; trace := trace w ++ [e] |}).

Definition set_collection (c : list Entry) : M unit := fun w =>
  (inr tt,
   {| files := files w; collection := c; lmstudio := lmstudio w;
      available_models := available_models w;
      current_model := current_model w; trace := trace w |}).

Definition set_available_models (ms : list str) : M unit := fun w =>
  (inr tt,
   {| files := files w; collection := collection w; lmstudio := lmstudio w;
      available_models := ms;
      current_model := current_model w; trace := trace w |}).

Definition set_current_model (m : option str) : M unit := fun w =>
  (inr tt,
   {| files := files w; collection := collection w; lmstudio := lmstudio w;
      available_models := available_models w;
      current_model := m; trace := trace w |}).

(** Lift an exception-or-value into the monad. *)
Definition lift {A} (r : Exn + A) : M A :=
  match r with
  | inl e => raise e
  | inr x => mret x
  end.

(** ** External collaborators

    Libraries the sources call but do not contain.  Each is an interface;
    the services are written against it. *)

(** [RecursiveCharacterTextSplitter.split_text] (langchain). *)
Class TextSplitter := split_text : str -> list str.

(** Page texts of a PDF file, or the exception the PDF library raised. *)
Class PdfReader := pdf_pages : str -> Exn + list str.

(** [pathlib.Path]: [str(p)], [p.name] and [p.suffix]. *)
Class Pathlib := {
  path_str : str -> str;
  path_name : str -> str;
  path_suffix : str -> str
}.

(** [SentenceTransformer.encode] on one text. *)
Class Embedder := encode : str -> list Q.

(** Distance of the collection's HNSW space between two embeddings. *)
Class Metric := distance : list Q -> list Q -> Q.

(** The format specifier [:.2f]. *)
Class FloatFormat := format_2f : Q -> str.

(** The part of the file system [process_directory] walks: the default
    documents directory ([BASE_DIR / "docs"], which depends on where the
    program is installed) and [Path(directory).rglob('*')], the paths
    below a directory in the order the traversal yields them. *)
Class FileSystem := {
  DOCS_DIR : str;
  rglob : str -> list str
}.

(** ** document_processor.py *)

Module DocumentProcessor.

(** [re.sub(r'\s+', ' ', text)]: every maximal run of whitespace becomes
    one space.  [in_run] tells whether the previous character was
    whitespace. *)
Fixpoint sub_whitespace (in_run : bool) (text : str) : str :=
  match text with
  | [] => []
  | c :: rest =>
      if isspace c then
        if in_run then sub_whitespace true rest
        else 32%N :: sub_whitespace true rest
      else c :: sub_whitespace false rest
  end.

(** The class [[\x00-\x08\x0b\x0c\x0e-\x1f]]. *)
Definition is_control (c : char) : bool :=
  ((c <=? 8) || (c =? 11) || (c =? 12) || (14 <=? c) && (c <=? 31))%N.

(** [re.sub(r'[\x00-\x08\x0b\x0c\x0e-\x1f]', '', text)] *)
Definition sub_control (text : str) : str :=
  List.filter (fun c => negb (is_control c)) text.

Definition clean_text (text : str) : str :=
  let text := sub_whitespace false text in
  let text := sub_control text in
  strip text.

(** Characters that the second substitution of [clean_text] can remove:
    control characters that the first did not already turn into a space. *)
Definition removable (c : char) : bool := is_control c && negb (isspace c).

(** Whitespace normal form: every whitespace character is a space and
    no two of them are adjacent.  [after_space] tells whether the
    previous character was whitespace. *)
Fixpoint single_spaced (after_space : bool) (text : str) : bool :=
  match text with
  | [] => true
  | c :: rest =>
      if isspace c then
        (c =? 32)%N && negb after_space && single_spaced true rest
      else single_spaced false rest
  end.

(** [s.lower()], on the ASCII letters. *)
Definition lower (s : str) : str :=
  (fun c => if (65 <=? c) && (c <=? 90) then c + 32 else c)%N <$> s.

Section Processor.
Context `{TextSplitter, PdfReader, Pathlib}.

(** The page loop shared by the three PDF back ends. *)
Fixpoint page_texts (page_num : nat) (pages : list str) : str :=
  match pages with
  | [] => []
  | page_text :: rest =>
      (nl ++ u "[Страница " ++ str_of_nat (page_num + 1) ++ u "]" ++ nl
       ++ page_text) ++ page_texts (S page_num) rest
  end.

Definition extract_text_from_pdf (pdf_path : str) : M str :=
  try_except
    (pages ← lift (pdf_pages pdf_path);
     mret (clean_text (page_texts 0 pages)))
    (fun _ => mret []).

(** [open(file_path, 'r', encoding='utf-8').read()] *)
Definition read_file (file_path : str) : M str :=
  w ← get_world;
  match files w !! file_path with
  | Some text => _ ← emit (FileRead file_path); mret text
  | None => raise (FileNotFoundError file_path)
  end.

(** [enumerate(chunks)] with the metadata attached to each chunk. *)
Definition attach_metadata (file_path : str) (chunks : list str)
  : list Chunk :=
  imap (fun i chunk =>
          {| content := chunk;
             metadata := {| source := path_str file_path;
                            filename := path_name file_path;
                            chunk_id := i;
                            total_chunks := length chunks |} |})
       chunks.

Definition process_document (file_path : str) : M (list Chunk) :=
  w ← get_world;
  if decide (files w !! file_path = None) then
    raise (FileNotFoundError
             (u "Файл не найден: " ++ path_str file_path))
  else
    text ← (if decide (lower (path_suffix file_path) = u ".pdf")
             then extract_text_from_pdf (path_str file_path)
             else read_file file_path);
    if decide (strip text = []) then mret []
    else
      let chunks := split_text text in
      mret (attach_metadata file_path chunks).

End Processor.

Section Directory.
Context `{TextSplitter, PdfReader, Pathlib, FileSystem}.

(** The suffix test of [process_directory]. *)
Definition supported_suffix (file_path : str) : bool :=
  bool_decide (lower (path_suffix file_path) ∈ [u ".pdf"; u ".txt"; u ".md"]).

(** The loop of [process_directory] over the paths still to visit, with
    the chunks collected so far.  A file whose processing raises is
    reported and skipped. *)
Fixpoint process_files (paths : list str) (all_chunks : list Chunk)
  : M (list Chunk) :=
  match paths with
  | [] => mret all_chunks
  | file_path :: rest =>
      w ← get_world;
      if bool_decide (is_Some (files w !! file_path))
         && supported_suffix file_path
      then
        all_chunks ← try_except
                       (chunks ← process_document (path_str file_path);
                        mret (all_chunks ++ chunks))
                       (fun _ => mret all_chunks);
        process_files rest all_chunks
      else process_files rest all_chunks
  end.

Definition process_directory (directory : option str) : M (list Chunk) :=
  let directory := default DOCS_DIR directory in
  process_files (rglob directory) [].

(** A chunk as [process_directory] may return it: numbered within its
    file, and named after a listed file with a supported suffix. *)
Definition chunk_from (paths : list (list N)) (c : Chunk) : Prop :=
  (chunk_id (metadata c) < total_chunks (metadata c))%nat
  /\ exists file_path,
      file_path ∈ paths
      /\ supported_suffix file_path = true
      /\ filename (metadata c) = path_name (path_str file_path).

End Directory.

End DocumentProcessor.

(** ** The ChromaDB collection

    A model of the three collection calls the sources make.  Records are
    kept in insertion order. *)

Module Chroma.

(** Result of [collection.query] for the single query embedding: the
    three parallel lists read as [results[...][0]]. *)
Record QueryResult := {
  documents : list str;
  metadatas : list Metadata;
  distances : list Q
}.

(** The records described by the keyword arguments of [collection.add]. *)
Fixpoint records (ids : list str) (embeddings : list (list Q))
    (documents : list str) (metadatas : list Metadata) : list Entry :=
  match ids, embeddings, documents, metadatas with
  | i :: ids, e :: embeddings, d :: documents, m :: metadatas =>
      {| entry_id := i; entry_embedding := e; entry_document := d;
         entry_metadata := m |} :: records ids embeddings documents metadatas
  | _, _, _, _ => []
  end.

(** Insert one record unless its id is already present. *)
Definition add_record (c : list Entry) (e : Entry) : list Entry :=
  if decide (entry_id e ∈ entry_id <$> c) then c else c ++ [e].

(** [collection.add]: a batch that repeats an id is rejected as a whole;
    otherwise each record is inserted, and a record whose id already
    exists in the collection is skipped. *)
Definition add (c : list Entry) (ids : list str) (embeddings : list (list Q))
    (documents : list str) (metadatas : list Metadata) : Exn + list Entry :=
  if decide (NoDup ids) then
    inr (foldl add_record c (records ids embeddings documents metadatas))
  else inl DuplicateIDError.

(** Ordering of candidates by distance to the query. *)
Definition nearer : relation (Entry * Q) := fun a b => (a.2 <= b.2)%Q.

#[global] Instance nearer_dec : RelDecision nearer.
Proof.
  intros a b. unfold nearer, Qle.
  exact (decide (Qnum a.2 * QDen b.2 ≤ Qnum b.2 * QDen a.2)%Z).
Defined.

Section Query.
Context `{Metric}.

Definition candidates (c : list Entry) (q : list Q) : list (Entry * Q) :=
  (fun e => (e, distance q (entry_embedding e))) <$> c.

(** The [n_results] nearest records, nearest first; fewer when the
    collection is smaller.  (The HNSW index searches approximately; the
    exact neighbours computed here are one of its possible answers.) *)
Definition nearest (c : list Entry) (q : list Q) (n_results : Z)
  : list (Entry * Q) :=
  take (Z.to_nat n_results) (merge_sort nearer (candidates c q)).

(** [collection.query] with [include=['documents', 'metadatas',
    'distances']].  A non-positive [n_results] is rejected. *)
Definition query (c : list Entry) (query_embedding : list Q)
    (n_results : Z) : Exn + QueryResult :=
  if decide (n_results ≤ 0) then inl (InvalidNResults n_results)
  else
    let found := nearest c query_embedding n_results in
    inr {| documents := (fun r => entry_document r.1) <$> found;
           metadatas := (fun r => entry_metadata r.1) <$> found;
           distances := snd <$> found |}.

End Query.

End Chroma.

(** ** vector_database.py *)

Module VectorDatabase.

Section Database.
Context `{Embedder, Metric}.

(** The id under which a chunk is stored:
    [f"{metadata['filename']}_{metadata['chunk_id']}"]. *)
Definition make_id (metadata : Metadata) : str :=
  filename metadata ++ u "_" ++ str_of_nat (chunk_id metadata).

Definition add_documents (documents : list Chunk) : M unit :=
  if decide (documents = []) then mret tt
  else
    let texts := content <$> documents in
    let metadatas := metadata <$> documents in
    let ids := (fun doc => make_id (metadata doc)) <$> documents in
    _ ← emit (Encode texts);
    let embeddings := encode <$> texts in
    w ← get_world;
    _ ← emit (CollectionAdd ids);
    c ← lift (Chroma.add (collection w) ids embeddings texts metadatas);
    set_collection c.

(** The records [add_documents] hands to the collection, one per
    document. *)
Definition entries_of (documents : list Chunk) : list Entry :=
  (fun doc => {| entry_id := make_id (metadata doc);
                 entry_embedding := encode (content doc);
                 entry_document := content doc;
                 entry_metadata := metadata doc |}) <$> documents.

(** The loop over [zip(documents, metadatas, distances)]. *)
Definition format_results (results : Chroma.QueryResult) : list Hit :=
  imap (fun i '(doc, metadata, distance) =>
          {| hit_content := doc;
             hit_metadata := metadata;
             similarity_score := 1 - distance;
             rank := i + 1 |})
       (zip (zip (Chroma.documents results) (Chroma.metadatas results))
            (Chroma.distances results)).

Definition search (query : str) (n_results : option Z) : M (list Hit) :=
  let n_results := default MAX_RETRIEVED_DOCS n_results in
  _ ← emit (Encode [query]);
  let query_embedding := encode query in
  w ← get_world;
  _ ← emit (CollectionQuery n_results);
  results ← lift (Chroma.query (collection w) query_embedding n_results);
  mret (format_results results).

(** The same loop, over the records the collection returned rather than
    over the three parallel lists. *)
Definition hits_of (found : list (Entry * Q)) : list Hit :=
  imap (fun i r =>
          {| hit_content := entry_document r.1;
             hit_metadata := entry_metadata r.1;
             similarity_score := 1 - r.2;
             rank := i + 1 |}) found.

(** [get_collection_info()['documents_count']] *)
Definition documents_count : M Z :=
  w ← get_world;
  _ ← emit CollectionCount;
  mret (Z.of_nat (length (collection w))).

Definition clear_collection : M unit :=
  _ ← emit CollectionReset;
  set_collection [].

End Database.



Definition get_document_sources : M (list str) :=
  w ← get_world;
  _ ← emit CollectionGet;
  let sources :=
    remove_dups ((fun e => filename (entry_metadata e)) <$> collection w) in
  mret (sorted sources).

End VectorDatabase.

(** ** rag_service.py *)

Module RAGService.

(** [str(e)].  For exceptions raised inside the libraries the message is
    the library's own; only its presence matters here. *)
Definition exn_str (e : Exn) : str :=
  match e with
  | FileNotFoundError msg => msg
  | DuplicateIDError => u "Expected IDs to be unique"
  | InvalidNResults n =>
      u "Number of requested results " ++ str_of_Z n
        ++ u ", cannot be negative, or zero."
  | ConnectError => u "All connection attempts failed"
  | OtherError msg => msg
  | ValidationError field => of_string field ++ u ": Field required"
  | HTTPException status_code detail =>
      str_of_Z status_code ++ u ": " ++ detail
  end.

(** Truthiness of an optional string: [None] and [''] are false. *)
Definition truthy (s : option str) : bool :=
  match s with
  | Some (_ :: _) => true
  | _ => false
  end.

(** [self.lmstudio_client.get(path)] *)
Definition client_get (path : str) : M Response :=
  _ ← emit (HttpGet path);
  w ← get_world;
  if decide (path = u "/health") then lift (health (lmstudio w))
  else if decide (path = u "/models") then lift (models (lmstudio w))
  else raise (OtherError (u "unexpected path")).

(** [self.lmstudio_client.post(path, json=payload, headers=...)] *)
Definition client_post (path : str) (payload : Payload)
    (headers : list (str * str)) : M Response :=
  _ ← emit (HttpPost path payload headers);
  w ← get_world;
  lift (chat (lmstudio w) payload).

Definition _refresh_available_models : M (list str) :=
  try_except
    (response ← client_get (u "/models");
     if decide (status response = 200) then
       ids ← lift (json_model_ids response);
       _ ← set_available_models ids;
       w ← get_world;
       _ ← (if negb (truthy (current_model w)) then
              match available_models w with
              | first :: _ => set_current_model (Some first)
              | [] => mret tt
              end
            else mret tt);
       w ← get_world;
       mret (available_models w)
     else mret [])
    (fun _ => mret []).

Definition BLOCK_SEPARATOR : str := nl ++ u "---" ++ nl.

Definition TRUNCATION_MARKER : str := u "..." ++ nl ++ u "[Контекст обрезан]".

Section Context.
Context `{FloatFormat}.

(** One labelled block of the context. *)
Definition context_part (doc : Hit) : str :=
  u "[Источник: " ++ filename (hit_metadata doc) ++ u ", релевантность: "
    ++ format_2f (similarity_score doc) ++ u "]" ++ nl
    ++ hit_content doc ++ nl.

(** [_format_context] with the length budget as an argument. *)
Definition format_context_within (max_length : nat) (documents : list Hit)
  : str :=
  let context_parts := context_part <$> documents in
  let context := join BLOCK_SEPARATOR context_parts in
  if decide (max_length < length context)%nat
  then take max_length context ++ TRUNCATION_MARKER
  else context.

Definition _format_context (documents : list Hit) : str :=
  format_context_within MAX_CONTEXT_LENGTH documents.

End Context.

Definition _build_prompt (query context : str) : str :=
  u "Ты эксперт по системе IPS PLM и модулям расширения. " ++ nl ++ nl
    ++ u "На основе предоставленной документации ответь на вопрос пользователя максимально точно и подробно. Используй только информацию из предоставленных источников."
    ++ nl ++ nl
    ++ u "ДОКУМЕНТАЦИЯ:" ++ nl ++ context ++ nl ++ nl
    ++ u "ВОПРОС: " ++ query ++ nl ++ nl
    ++ u "ОТВЕТ: Отвечай на русском языке, структурируй ответ, указывай источники информации когда это уместно.".

Definition LMSTUDIO_UNAVAILABLE : str :=
  u "Ошибка: LMStudio недоступен. Убедитесь, что сервер запущен на localhost:1234".

Definition LMSTUDIO_CONNECT_ERROR : str :=
  u "Ошибка подключения к LMStudio. Убедитесь, что LMStudio запущен на localhost:1234".

Definition lmstudio_api_error (status_code : Z) (body : str) : str :=
  u "Ошибка LMStudio API: " ++ str_of_Z status_code ++ u " - " ++ body.

Definition lmstudio_call_error (e : Exn) : str :=
  u "Ошибка при обращении к LMStudio: " ++ exn_str e.

Definition make_payload (model prompt : str) : Payload :=
  {| model := model;
     messages := [(u "user", prompt)];
     temperature := 4 # 10;
     max_tokens := 1200;
     stream := false |}.

Definition _call_lmstudio (prompt : str) (model : option str) : M str :=
  try_except
    (health_response ← client_get (u "/health");
     if decide (status health_response ≠ 200) then mret LMSTUDIO_UNAVAILABLE
     else
       let model := if truthy model then default [] model
                    else LMSTUDIO_MODEL in
       let payload := make_payload model prompt in
       response ← client_post (u "/chat/completions") payload
                    [(u "Authorization", u "Bearer " ++ LMSTUDIO_API_KEY)];
       if decide (status response = 200) then lift (json_completion response)
       else mret (lmstudio_api_error (status response) (text response)))
    (fun e =>
       match e with
       | ConnectError => mret LMSTUDIO_CONNECT_ERROR
       | _ => mret (lmstudio_call_error e)
       end).

(** The answers [_call_lmstudio] gives in place of a completion. *)
Inductive diagnostic : str -> Prop :=
| diagnostic_unavailable : diagnostic LMSTUDIO_UNAVAILABLE
| diagnostic_connect : diagnostic LMSTUDIO_CONNECT_ERROR
| diagnostic_api status_code body :
    diagnostic (lmstudio_api_error status_code body)
| diagnostic_call e : diagnostic (lmstudio_call_error e).

(** An HTTP call fails when it raises (connection refused, timeout, ...)
    or answers with a status other than 200. *)
Definition failed (r : HttpResult) : Prop :=
  match r with
  | inl _ => True
  | inr response => status response ≠ 200
  end.

(** The backend fails at the health probe or at the completion call. *)
Definition backend_fails (b : Backend) : Prop :=
  failed (health b) \/ forall payload, failed (chat b payload).

(** The [model] fields of the completion requests in a trace. *)
Definition posted_models (t : list Event) : list str :=
  omap (fun e => match e with
                 | HttpPost _ payload _ => Some (model payload)
                 | _ => None
                 end) t.

Definition NO_RELEVANT_INFORMATION : str :=
  u "Извините, я не нашел релевантной информации в документации по вашему запросу.".

Section Service.
Context `{Embedder, Metric, FloatFormat}.

Definition query (question : str) (n_docs : option Z)
  : M (gmap string Value) :=
  let n_docs := default MAX_RETRIEVED_DOCS n_docs in
  relevant_docs ← VectorDatabase.search question (Some n_docs);
  if decide (relevant_docs = []) then
    mret (<["answer" := VStr NO_RELEVANT_INFORMATION]>
          (<["sources" := VList []]>
          (<["query" := VStr question]> ∅)))
  else
    let context := _format_context relevant_docs in
    let prompt := _build_prompt question context in
    answer ← _call_lmstudio prompt None;
    let sources :=
      remove_dups ((fun doc => filename (hit_metadata doc)) <$> relevant_docs) in
    mret (<["answer" := VStr answer]>
          (<["sources" := VList sources]>
          (<["retrieved_docs" := VInt (len relevant_docs)]>
          (<["query" := VStr question]>
          (<["context_length" := VInt (len context)]> ∅))))).

End Service.





End RAGService.

(** ** api.py *)

Module Api.

(** The response model of [/query]; every field is required. *)
Record QueryResponse := {
  answer : str;
  sources : list str;
  retrieved_docs : Z;
  query : str;
  context_length : Z
}.

(** Construction of a [QueryResponse] from the keys of [result]; a
    missing key or a value of the wrong type is a validation error. *)
Definition make_QueryResponse (result : gmap string Value)
  : Exn + QueryResponse :=
  match result !! "answer" with
  | Some (VStr a) =>
      match result !! "sources" with
      | Some (VList s) =>
          match result !! "retrieved_docs" with
          | Some (VInt n) =>
              match result !! "query" with
              | Some (VStr q) =>
                  match result !! "context_length" with
                  | Some (VInt c) =>
                      inr {| answer := a; sources := s; retrieved_docs := n;
                             query := q; context_length := c |}
                  | _ => inl (ValidationError "context_length")
                  end
              | _ => inl (ValidationError "query")
              end
          | _ => inl (ValidationError "retrieved_docs")
          end
      | _ => inl (ValidationError "sources")
      end
  | _ => inl (ValidationError "answer")
  end.

(** One entry of the [results] list of [/search]. *)
Record SearchResult := {
  result_content : str;
  result_source : str;
  result_chunk_id : nat;
  result_similarity_score : Q
}.

Record SearchResponse := {
  search_query : str;
  results : list SearchResult;
  total_found : Z
}.

(** [outcome.get(key)] on what a call produced: the value stored under
    [key] when the call returned a dictionary that has the key. *)
Definition returned (key : string) (outcome : Exn + gmap string Value)
  : option Value :=
  match outcome with
  | inr result => result !! key
  | inl _ => None
  end.

(** The status code of the HTTP error a route raised, if it raised one. *)
Definition raised_status {A} (outcome : Exn + A) : option Z :=
  match outcome with
  | inl (HTTPException status_code _) => Some status_code
  | _ => None
  end.

Section Routes.
Context `{Embedder, Metric, FloatFormat}.

Definition query_rag (question : str) (max_docs : option Z)
  : M QueryResponse :=
  try_except
    (if decide (strip question = []) then
       raise (HTTPException 400 (u "Вопрос не может быть пустым"))
     else
       result ← RAGService.query question max_docs;
       lift (make_QueryResponse result))
    (fun e =>
       raise (HTTPException 500
                (u "Ошибка обработки запроса: " ++ RAGService.exn_str e))).

Definition search_documents (query : str) (max_docs : Z)
  : M SearchResponse :=
  try_except
    (if decide (strip query = []) then
       raise (HTTPException 400 (u "Запрос не может быть пустым"))
     else
       found ← VectorDatabase.search query (Some max_docs);
       let formatted_results :=
         (fun result =>
            {| result_content :=
                 if decide (300 < length (hit_content result))%nat
                 then take 300 (hit_content result) ++ u "..."
                 else hit_content result;
               result_source := filename (hit_metadata result);
               result_chunk_id := chunk_id (hit_metadata result);
               result_similarity_score := similarity_score result |})
           <$> found in
       mret {| search_query := query;
               results := formatted_results;
               total_found := len found |})
    (fun e =>
       raise (HTTPException 500
                (u "Ошибка поиска: " ++ RAGService.exn_str e))).

End Routes.

Section Ingestion.
Context `{TextSplitter, PdfReader, Pathlib, FileSystem, Embedder}.

(** The background task started by [/process-documents]. *)
Definition process_docs_task (directory : option str) (clear_existing : bool)
  : M unit :=
  _ ← (if clear_existing then VectorDatabase.clear_collection else mret tt);
  documents ← DocumentProcessor.process_directory directory;
  if decide (documents = []) then mret tt
  else VectorDatabase.add_documents documents.

End Ingestion.

End Api.

(** ** Sample data used by the examples *)

Module Sample.

Definition splitter : TextSplitter := fun text => [take 4 text; drop 4 text].
Definition no_pdf : PdfReader := fun _ => inl (OtherError (u "no pdf")).
Definition flat_paths : Pathlib :=
  {| path_str := id; path_name := id; path_suffix := fun _ => [] |}.
Definition embedder : Embedder := fun text => [Z.of_nat (length text) # 1].
Definition metric : Metric := fun a b =>
  match a, b with
  | x :: _, y :: _ => ((x - y) * (x - y))%Q
  | _, _ => 0%Q
  end.
Definition fmt : FloatFormat := fun _ => u "0.00".

Definition meta (name : string) (i n : nat) : Metadata :=
  {| source := u name; filename := u name; chunk_id := i; total_chunks := n |}.

Definition doc (name : string) (i n : nat) (body : string) : Chunk :=
  {| content := u body; metadata := meta name i n |}.

Definition ok (body : string) : Response :=
  {| status := 200; text := u body;
     json_model_ids := inr [u "other-model"];
     json_completion := inr (u body) |}.

Definition online : Backend :=
  {| health := inr (ok "ok"); models := inr (ok "models");
     chat := fun _ => inr (ok "answer") |}.

Definition offline : Backend :=
  {| health := inl ConnectError; models := inl ConnectError;
     chat := fun _ => inl ConnectError |}.

Definition entry_of (d : Chunk) : Entry :=
  {| entry_id := VectorDatabase.make_id (metadata d);
     entry_embedding := embedder (content d);
     entry_document := content d;
     entry_metadata := metadata d |}.

(** The two chunks of the manual used in the specification's scenario. *)
Definition manual : list Chunk :=
  [ doc "manual.pdf" 0 2 "Extension modules allow custom integrations.";
    doc "manual.pdf" 1 2 "They are loaded at startup." ].

Definition world (c : list Entry) (b : Backend) : World :=
  {| files := ∅; collection := c; lmstudio := b; available_models := [];
     current_model := None; trace := [] |}.

(** A documents directory with two text files and one image. *)
Definition tree : FileSystem :=
  {| DOCS_DIR := u "docs";
     rglob := fun _ => [u "guide.txt"; u "logo.png"; u "notes.md"] |}.

(** Paths whose suffix is everything from the last dot on. *)
Fixpoint suffix_from_dot (s : list N) : list N :=
  match s with
  | [] => []
  | c :: rest =>
      if bool_decide (46%N ∈ rest) then suffix_from_dot rest
      else if (c =? 46)%N then s else []
  end.

Definition dotted_paths : Pathlib :=
  {| path_str := id; path_name := id; path_suffix := suffix_from_dot |}.

Definition disk : gmap (list N) (list N) :=
  <[u "guide.txt" := u "alpha beta"]>
  (<[u "logo.png" := u "binary"]>
  (<[u "notes.md" := u "gamma delta"]> ∅)).

Definition world_with_files (c : list Entry) (b : Backend) : World :=
  {| files := disk; collection := c; lmstudio := b; available_models := [];
     current_model := None; trace := [] |}.

(** Two files of the same name in different directories. *)
Fixpoint basename (s : list N) : list N :=
  match s with
  | [] => []
  | c :: rest => if bool_decide (47%N ∈ rest) then basename rest
                 else if (c =? 47)%N then rest else s
  end.

Definition named_paths : Pathlib :=
  {| path_str := id; path_name := basename; path_suffix := suffix_from_dot |}.

Definition twin_tree : FileSystem :=
  {| DOCS_DIR := u "docs";
     rglob := fun _ => [u "a/readme.md"; u "b/readme.md"] |}.

Definition whole : TextSplitter := fun text => [text].

Definition twin_world (c : list Entry) : World :=
  {| files := <[u "a/readme.md" := u "first"]>
              (<[u "b/readme.md" := u "second"]> ∅);
     collection := c; lmstudio := offline; available_models := [];
     current_model := None; trace := [] |}.

End Sample.

(** * Properties *)

(** ** Chunk numbering *)

Section Numbering.
Context `{TextSplitter, PdfReader, Pathlib}.
Import DocumentProcessor.

Lemma attach_metadata_length file_path chunks :
  length (attach_metadata file_path chunks) = length chunks.
Proof. unfold attach_metadata. apply length_imap. Qed.

Lemma attach_metadata_chunk_ids file_path chunks :
  (fun c => chunk_id (metadata c)) <$> attach_metadata file_path chunks
  = seq 0 (length chunks).
Proof.
  unfold attach_metadata. rewrite fmap_imap.
  rewrite <- (list_fmap_id (seq 0 (length chunks))).
  rewrite <- (imap_seq_0 chunks id).
  apply imap_ext. intros i x _. reflexivity.
Qed.

Lemma attach_metadata_total file_path chunks :
  Forall (fun c => total_chunks (metadata c) = length chunks)
         (attach_metadata file_path chunks).
Proof.
  apply Forall_forall. intros c Hc. unfold attach_metadata in Hc.
  apply elem_of_lookup_imap_1 in Hc as (i & y & -> & _). reflexivity.
Qed.

Lemma attach_metadata_content file_path chunks :
  content <$> attach_metadata file_path chunks = chunks.
Proof.
  unfold attach_metadata. rewrite fmap_imap.
  rewrite <- (list_fmap_id chunks) at 2. rewrite <- imap_const.
  apply imap_ext. intros i x _. reflexivity.
Qed.

(** C9. Whenever [process_document] returns [n] chunks, their
    [chunk_id]s are exactly [0], ..., [n-1] in document order and every
    chunk carries [total_chunks = n]. *)
Theorem process_document_numbering file_path w processed w' :
  process_document file_path w = (inr processed, w') ->
  (fun c => chunk_id (metadata c)) <$> processed = seq 0 (length processed)
  /\ Forall (fun c => total_chunks (metadata c) = length processed) processed.
Proof.
  unfold process_document, mbind, M_bind, get_world.
  destruct (decide (files w !! file_path = None)) as [|Hfile]; [discriminate|].
  match goal with
  | |- context [match ?t w with _ => _ end] => destruct (t w) as [[e|text] w1]
  end; [discriminate|].
  destruct (decide (strip text = [])).
  - intros [= <- <-]. split; [reflexivity | constructor].
  - intros [= <- <-]. rewrite attach_metadata_length. split.
    + apply attach_metadata_chunk_ids.
    + apply attach_metadata_total.
Qed.

End Numbering.

Lemma process_document_numbering_witness :
  let w := {| files := {[ u "notes.txt" := u "alpha beta" ]};
              collection := []; lmstudio := Sample.offline;
              available_models := []; current_model := None; trace := [] |} in
  exists processed w',
    DocumentProcessor.process_document
      (H := Sample.splitter) (H0 := Sample.no_pdf) (H1 := Sample.flat_paths)
      (u "notes.txt") w = (inr processed, w')
    /\ length processed = 2%nat
    /\ (fun c => chunk_id (metadata c)) <$> processed
       = seq 0 (length processed)
    /\ Forall (fun c => total_chunks (metadata c) = length processed)
              processed.
Proof.
  intros w. eexists _, _.
  split; [vm_compute; reflexivity|].
  split; [reflexivity|].
  eapply (process_document_numbering
            (H := Sample.splitter) (H0 := Sample.no_pdf)
            (H1 := Sample.flat_paths) (u "notes.txt") w).
  vm_compute. reflexivity.
Defined.

(** ** Text normalisation *)

Section Cleaning.
Import DocumentProcessor.

Lemma lstrip_suffix s : lstrip s `suffix_of` s.
Proof.
  induction s as [|c s IH]; simpl; [done|].
  destruct (isspace c); [by apply suffix_cons_r | done].
Qed.

Lemma Forall_lstrip (P : N -> Prop) s : Forall P s -> Forall P (lstrip s).
Proof.
  intros Hs. destruct (lstrip_suffix s) as [k Hk].
  rewrite Hk in Hs. by apply Forall_app in Hs as [_ ?].
Qed.

Lemma Forall_strip (P : N -> Prop) s : Forall P s -> Forall P (strip s).
Proof.
  intros Hs. unfold strip, rstrip.
  apply Forall_reverse, Forall_lstrip, Forall_reverse, Forall_lstrip, Hs.
Qed.

Lemma lstrip_head s c : head (lstrip s) = Some c -> isspace c = false.
Proof.
  induction s as [|d s IH]; simpl; [discriminate|].
  destruct (isspace d) eqn:Hd; [done|].
  simpl. by intros [= <-].
Qed.

Lemma lstrip_snoc s c :
  isspace c = false -> exists k, lstrip (s ++ [c]) = k ++ [c].
Proof.
  intros Hc. induction s as [|d s [k IH]]; simpl.
  - rewrite Hc. by exists [].
  - destruct (isspace d); [by exists k|]. by exists (d :: s).
Qed.

(** Nothing is left to strip at either end of a stripped string. *)
Lemma strip_ends s c :
  (head (strip s) = Some c -> isspace c = false)
  /\ (last (strip s) = Some c -> isspace c = false).
Proof.
  unfold strip, rstrip. split.
  - destruct (lstrip s) as [|d t] eqn:Hl; [discriminate|].
    assert (isspace d = false) as Hd by (apply (lstrip_head s); by rewrite Hl).
    rewrite reverse_cons.
    destruct (lstrip_snoc (reverse t) d Hd) as [k ->].
    rewrite reverse_app. simpl. by intros [= <-].
  - rewrite last_reverse. apply lstrip_head.
Qed.

(** The stripped control characters never survive [clean_text]. *)
Lemma clean_text_no_control text :
  Forall (fun c => is_control c = false) (clean_text text).
Proof.
  unfold clean_text. apply Forall_strip. unfold sub_control.
  apply Forall_forall. intros c Hc.
  apply list_elem_of_In, filter_In in Hc as [_ Hc].
  by apply negb_true_iff in Hc.
Qed.

(** [clean_text] output has no leading and no trailing whitespace. *)
Lemma clean_text_stripped text c :
  (head (clean_text text) = Some c -> isspace c = false)
  /\ (last (clean_text text) = Some c -> isspace c = false).
Proof. apply strip_ends. Qed.

(** *** Where [clean_text] is idempotent *)

Lemma sub_whitespace_single_spaced b text :
  single_spaced b (sub_whitespace b text) = true.
Proof.
  revert b. induction text as [|c rest IH]; intros b; simpl; [done|].
  destruct (isspace c) eqn:Hc.
  - destruct b; simpl; [apply IH|].
    change (isspace 32) with true. simpl. apply IH.
  - simpl. rewrite Hc. apply IH.
Qed.

Lemma single_spaced_fixed b text :
  single_spaced b text = true -> sub_whitespace b text = text.
Proof.
  revert b. induction text as [|c rest IH]; intros b; simpl; [done|].
  destruct (isspace c) eqn:Hc.
  - intros [[Hsp Hb%negb_true_iff]%andb_prop Hrest]%andb_prop. subst b.
    apply N.eqb_eq in Hsp. subst c. f_equal. by apply IH.
  - intros Hrest. f_equal. by apply IH.
Qed.

Lemma single_spaced_weaken text :
  single_spaced true text = true -> single_spaced false text = true.
Proof.
  destruct text as [|c rest]; simpl; [done|].
  destruct (isspace c); [|done]. rewrite andb_false_r. discriminate.
Qed.

Lemma single_spaced_lstrip b text :
  single_spaced b text = true -> single_spaced false (lstrip text) = true.
Proof.
  revert b. induction text as [|c rest IH]; intros b; simpl; [done|].
  destruct (isspace c) eqn:Hc.
  - intros [_ Hrest]%andb_prop. by apply (IH true).
  - intros Hrest. simpl. by rewrite Hc.
Qed.

(** [rstrip] by recursion on the string. *)
Lemma lstrip_app_singleton k c :
  lstrip (k ++ [c])
  = match lstrip k with
    | [] => if isspace c then [] else [c]
    | _ => lstrip k ++ [c]
    end.
Proof.
  induction k as [|d k IH]; simpl; [by destruct (isspace c)|].
  destruct (isspace d); [exact IH | done].
Qed.

Lemma rstrip_cons c text :
  rstrip (c :: text)
  = match rstrip text with
    | [] => if isspace c then [] else [c]
    | _ => c :: rstrip text
    end.
Proof.
  unfold rstrip. rewrite reverse_cons, lstrip_app_singleton.
  destruct (lstrip (reverse text)) as [|d k] eqn:Hk.
  - by destruct (isspace c).
  - rewrite reverse_app. simpl.
    destruct (reverse (d :: k)) eqn:Hr; [|done].
    apply (f_equal length) in Hr. rewrite length_reverse in Hr. done.
Qed.

Lemma single_spaced_rstrip b text :
  single_spaced b text = true -> single_spaced b (rstrip text) = true.
Proof.
  revert b. induction text as [|c rest IH]; intros b; [done|].
  rewrite rstrip_cons. cbn [single_spaced].
  destruct (isspace c) eqn:Hc.
  - intros [Hhead Hrest]%andb_prop. specialize (IH true Hrest).
    destruct (rstrip rest) as [|d k]; [done|].
    change (single_spaced b (c :: d :: k))
      with (if isspace c
            then (c =? 32)%N && negb b && single_spaced true (d :: k)
            else single_spaced false (d :: k)).
    by rewrite Hc, Hhead, IH.
  - intros Hrest. specialize (IH false Hrest).
    destruct (rstrip rest) as [|d k].
    + simpl. by rewrite Hc.
    + change (single_spaced b (c :: d :: k))
        with (if isspace c
              then (c =? 32)%N && negb b && single_spaced true (d :: k)
              else single_spaced false (d :: k)).
      by rewrite Hc, IH.
Qed.

Lemma lstrip_fixed text :
  (forall c, head text = Some c -> isspace c = false) -> lstrip text = text.
Proof.
  destruct text as [|c rest]; simpl; [done|].
  intros Hc. by rewrite (Hc c eq_refl).
Qed.

Lemma lstrip_idempotent text : lstrip (lstrip text) = lstrip text.
Proof. apply lstrip_fixed. intros c. apply lstrip_head. Qed.

Lemma strip_idempotent text : strip (strip text) = strip text.
Proof.
  unfold strip at 1.
  rewrite (lstrip_fixed (strip text))
    by (intros c; apply (strip_ends text c)).
  unfold strip, rstrip. by rewrite reverse_involutive, lstrip_idempotent.
Qed.

Lemma sub_control_fixed text :
  Forall (fun c => is_control c = false) text -> sub_control text = text.
Proof.
  unfold sub_control.
  induction 1 as [|c rest Hc _ IH]; simpl; [done|]. by rewrite Hc, IH.
Qed.

(** A string that [clean_text] returns in whitespace normal form is a
    fixed point of [clean_text]. *)
Lemma clean_text_fixed text :
  single_spaced false (clean_text text) = true ->
  clean_text (clean_text text) = clean_text text.
Proof.
  intros Hspaced. unfold clean_text at 1.
  rewrite (single_spaced_fixed _ _ Hspaced).
  rewrite (sub_control_fixed _ (clean_text_no_control text)).
  apply strip_idempotent.
Qed.

Lemma sub_whitespace_no_control b text :
  Forall (fun c => removable c = false) text ->
  Forall (fun c => is_control c = false) (sub_whitespace b text).
Proof.
  intros Htext. revert b.
  induction Htext as [|c rest Hc _ IH]; intros b; simpl; [done|].
  destruct (isspace c) eqn:Hsp.
  - destruct b; [apply IH|]. constructor; [done | apply IH].
  - constructor; [|apply IH].
    unfold removable in Hc. rewrite Hsp, andb_true_r in Hc. done.
Qed.

(** On text without removable control characters [clean_text] is
    idempotent and its result has no run of whitespace. *)
Lemma clean_text_idempotent_without_control text :
  Forall (fun c => removable c = false) text ->
  single_spaced false (clean_text text) = true
  /\ clean_text (clean_text text) = clean_text text.
Proof.
  intros Htext.
  assert (single_spaced false (clean_text text) = true) as Hspaced.
  { unfold clean_text.
    rewrite (sub_control_fixed _ (sub_whitespace_no_control false _ Htext)).
    unfold strip. apply single_spaced_rstrip.
    apply (single_spaced_lstrip false), sub_whitespace_single_spaced. }
  split; [exact Hspaced | by apply clean_text_fixed].
Qed.

(** In general the second application reaches the fixed point. *)
Lemma clean_text_stable_after_two text :
  clean_text (clean_text (clean_text text)) = clean_text (clean_text text).
Proof.
  apply clean_text_idempotent_without_control.
  eapply Forall_impl; [apply clean_text_no_control|].
  intros c Hc. unfold removable. by rewrite Hc.
Qed.

(** C10. A control character between two spaces: the whitespace runs are
    collapsed first and the control character is removed afterwards, so
    the two spaces meet.  The result has a run of two spaces, and cleaning
    it again changes it. *)
Theorem clean_text_control_between_spaces :
  let text := u "a " ++ [0%N] ++ u " b" in
  clean_text text = u "a  b"
  /\ clean_text (clean_text text) = u "a b"
  /\ clean_text (clean_text text) <> clean_text text.
Proof. vm_compute. repeat split; discriminate. Qed.

End Cleaning.

(** ** Context assembly *)

Section Assembly.
Context `{FloatFormat}.
Import RAGService.

Lemma truncation_marker_length : length TRUNCATION_MARKER = 22%nat.
Proof. reflexivity. Qed.

(** C8. The formatted context is never longer than the budget plus the
    truncation marker; when the joined blocks exceed the budget the
    output ends with the marker, and otherwise it is the joined blocks
    unchanged. *)
Theorem format_context_bounded (max_length : nat) (documents : list Hit) :
  let context := join BLOCK_SEPARATOR (context_part <$> documents) in
  (length (format_context_within max_length documents)
   <= max_length + length TRUNCATION_MARKER)%nat
  /\ ((max_length < length context)%nat ->
      TRUNCATION_MARKER `suffix_of` format_context_within max_length documents)
  /\ ((length context <= max_length)%nat ->
      format_context_within max_length documents = context).
Proof.
  intros context. unfold format_context_within. fold context.
  destruct (decide (max_length < length context)%nat) as [Hlong|Hshort].
  - split; [|split].
    + rewrite length_app, length_take. lia.
    + intros _. by apply suffix_app_r.
    + lia.
  - split; [|split]; [lia | lia | done].
Qed.

End Assembly.

Lemma format_context_bounded_witness :
  let documents :=
    [ {| hit_content := u "Extension modules allow custom integrations.";
         hit_metadata := Sample.meta "manual.pdf" 0 2;
         similarity_score := 9 # 10; rank := 1 |} ] in
  (length (RAGService.format_context_within (H := Sample.fmt) 10 documents)
   <= 10 + length RAGService.TRUNCATION_MARKER)%nat
  /\ RAGService.TRUNCATION_MARKER
       `suffix_of` RAGService.format_context_within (H := Sample.fmt) 10 documents.
Proof.
  intros documents.
  destruct (format_context_bounded (H := Sample.fmt) 10 documents)
    as (Hlen & Hmark & _).
  split; [exact Hlen|]. apply Hmark. vm_compute. lia.
Defined.

(** ** The collection: search *)

(** Unfold the monad and project the fields of the worlds it builds. *)
Ltac run :=
  cbv beta iota zeta delta
    [mbind M_bind mret M_ret emit get_world lift raise set_collection
     set_available_models set_current_model try_except];
  cbn [files collection lmstudio available_models current_model trace
       fst snd].

#[global] Instance nearer_total : Total Chroma.nearer.
Proof.
  intros a b. unfold Chroma.nearer.
  destruct (Qlt_le_dec a.2 b.2) as [Hlt|Hle]; [left | right; exact Hle].
  by apply Qlt_le_weak.
Qed.

#[global] Instance nearer_trans : Transitive Chroma.nearer.
Proof. intros a b c. unfold Chroma.nearer. apply Qle_trans. Qed.

Lemma StronglySorted_take {A} (R : relation A) n l :
  StronglySorted R l -> StronglySorted R (take n l).
Proof.
  intros Hl. revert n. induction Hl as [|x l Hl IH Hx]; intros [|n]; simpl;
    try constructor; [apply IH|].
  apply Forall_forall. intros y Hy.
  eapply Forall_forall; [exact Hx|].
  eapply elem_of_sublist; [exact Hy | apply sublist_take].
Qed.

Section Search.
Context `{Embedder, Metric}.
Import VectorDatabase.

Lemma zip3_fmap {A B C D} (f : A -> B) (g : A -> C) (h : A -> D) l :
  zip (zip (f <$> l) (g <$> l)) (h <$> l) = (fun x => (f x, g x, h x)) <$> l.
Proof. induction l as [|x l IH]; csimpl; [done|]. by rewrite IH. Qed.

Lemma format_results_found found :
  format_results
    {| Chroma.documents := (fun r => entry_document r.1) <$> found;
       Chroma.metadatas := (fun r => entry_metadata r.1) <$> found;
       Chroma.distances := snd <$> found |} = hits_of found.
Proof.
  unfold format_results, hits_of. simpl.
  rewrite zip3_fmap, imap_fmap. apply imap_ext. by intros i [e d] _.
Qed.

Lemma nearest_length_le_n c q n :
  (length (Chroma.nearest c q n) <= Z.to_nat n)%nat.
Proof. unfold Chroma.nearest. rewrite length_take. lia. Qed.

Lemma nearest_length c q n :
  length (Chroma.nearest c q n) = Nat.min (Z.to_nat n) (length c).
Proof.
  unfold Chroma.nearest. rewrite length_take.
  rewrite (Permutation_length (merge_sort_Permutation _ _)).
  unfold Chroma.candidates. by rewrite length_fmap.
Qed.

Lemma nearest_nil q n : Chroma.nearest [] q n = [].
Proof.
  unfold Chroma.nearest. simpl.
  replace (merge_sort Chroma.nearer []) with (@nil (Entry * Q))
    by reflexivity.
  apply take_nil.
Qed.

Lemma nearest_sorted c q n :
  StronglySorted Chroma.nearer (Chroma.nearest c q n).
Proof.
  apply StronglySorted_take, Sorted_StronglySorted; [apply _|].
  apply Sorted_merge_sort; apply _.
Qed.


Lemma hits_of_length found : length (hits_of found) = length found.
Proof. apply length_imap. Qed.

Lemma hits_of_scores found :
  similarity_score <$> hits_of found = (fun r => 1 - r.2)%Q <$> found.
Proof.
  unfold hits_of. rewrite fmap_imap, <- imap_const. by apply imap_ext.
Qed.

Lemma hits_of_ranks found :
  rank <$> hits_of found = seq 1 (length found).
Proof.
  unfold hits_of. rewrite fmap_imap, <- fmap_S_seq.
  rewrite <- (imap_seq_0 found S). apply imap_ext. intros i r _. simpl. lia.
Qed.


(** What a [search] with a positive result count does. *)
Lemma search_run query n_results w :
  let n := default MAX_RETRIEVED_DOCS n_results in
  0 < n ->
  exists w',
    search query n_results w
    = (inr (hits_of (Chroma.nearest (collection w) (encode query) n)), w')
    /\ collection w' = collection w
    /\ lmstudio w' = lmstudio w
    /\ trace w' = trace w ++ [Encode [query]; CollectionQuery n].
Proof.
  intros n Hn. unfold search. fold n. run. unfold Chroma.query.
  destruct (decide (n ≤ 0)) as [?|_]; [lia|]. simpl.
  rewrite format_results_found. eexists. split; [reflexivity|]. simpl.
  by rewrite <- app_assoc.
Qed.

(** C7. For a positive result count [k] (given, or the default of five),
    [search] returns at most [k] hits and at most as many as the
    collection holds; the similarity scores are non-increasing along the
    result and the ranks count from one. *)
Theorem search_bounded_and_ranked query n_results w :
  let k := default MAX_RETRIEVED_DOCS n_results in
  0 < k ->
  exists found w',
    search query n_results w = (inr found, w')
    /\ (length found <= Z.to_nat k)%nat
    /\ (length found <= length (collection w))%nat
    /\ StronglySorted (fun x y => y <= x)%Q (similarity_score <$> found)
    /\ rank <$> found = seq 1 (length found).
Proof.
  intros k Hn.
  destruct (search_run query n_results w Hn) as (w' & Hrun & _).
  fold k in Hrun. eexists _, w'. split; [exact Hrun|].
  rewrite hits_of_length, hits_of_scores, hits_of_ranks, nearest_length.
  repeat split; try lia.
  eapply StronglySorted_fmap; [|apply nearest_sorted].
  intros x y Hxy. unfold Chroma.nearer in Hxy. unfold Qminus.
  apply Qplus_le_compat; [apply Qle_refl|]. by apply Qopp_le_compat.
Qed.

(** C4 (amended). On an empty collection, [search] with a positive result
    count returns the empty list and raises nothing, whatever the query
    text. *)
Theorem search_empty_collection query n_results w :
  collection w = [] ->
  0 < default MAX_RETRIEVED_DOCS n_results ->
  exists w', search query n_results w = (inr [], w').
Proof.
  intros Hempty Hn.
  destruct (search_run query n_results w Hn) as (w' & Hrun & _).
  exists w'. by rewrite Hrun, Hempty, nearest_nil.
Qed.

End Search.

Lemma search_bounded_and_ranked_witness :
  exists found w',
    VectorDatabase.search (H := Sample.embedder) (H0 := Sample.metric)
      (u "What are extension modules?") (Some 2)
      (Sample.world (Sample.entry_of <$> Sample.manual) Sample.online)
    = (inr found, w')
    /\ (length found <= Z.to_nat 2)%nat
    /\ (length found
        <= length (collection (Sample.world (Sample.entry_of <$> Sample.manual)
                                            Sample.online)))%nat
    /\ StronglySorted (fun x y => y <= x)%Q (similarity_score <$> found)
    /\ rank <$> found = seq 1 (length found).
Proof.
  apply (search_bounded_and_ranked (H := Sample.embedder) (H0 := Sample.metric)
           (u "What are extension modules?") (Some 2)
           (Sample.world (Sample.entry_of <$> Sample.manual) Sample.online)).
  reflexivity.
Defined.

Lemma search_empty_collection_witness :
  exists w',
    VectorDatabase.search (H := Sample.embedder) (H0 := Sample.metric)
      (u "What are extension modules?") None (Sample.world [] Sample.online)
    = (inr [], w').
Proof.
  apply (search_empty_collection (H := Sample.embedder) (H0 := Sample.metric)
           (u "What are extension modules?") None
           (Sample.world [] Sample.online)).
  - reflexivity.
  - reflexivity.
Defined.

(** C4 (counterexample). A whitespace-only query is embedded and searched
    like any other: on a collection of two records it returns a hit. *)
Lemma search_blank_query_returns_hits :
  let blank := u "   " in
  strip blank = []
  /\ exists found w',
      VectorDatabase.search (H := Sample.embedder) (H0 := Sample.metric)
        blank (Some 1)
        (Sample.world (Sample.entry_of <$> Sample.manual) Sample.online)
      = (inr found, w')
      /\ length found = 1%nat.
Proof.
  split; [reflexivity|]. eexists _, _. split; [vm_compute; reflexivity|].
  reflexivity.
Qed.

(** ** The collection: adding documents *)

Section Ids.

Lemma byte_of_inj a b : byte_of a = byte_of b -> a = b.
Proof.
  unfold byte_of. intros E. apply (f_equal ascii_of_N) in E.
  by rewrite !ascii_N_embedding in E.
Qed.

Lemma of_string_inj s t : of_string s = of_string t -> s = t.
Proof.
  unfold of_string. intros E.
  assert (list_ascii_of_string s = list_ascii_of_string t) as E'.
  { revert E. generalize (list_ascii_of_string s) (list_ascii_of_string t).
    induction l as [|a l IH]; intros [|b k]; csimpl; try done.
    intros [= Hab Hlk]. f_equal; [by apply byte_of_inj | by apply IH]. }
  apply (f_equal string_of_list_ascii) in E'.
  by rewrite !string_of_list_ascii_of_string in E'.
Qed.

Lemma str_of_nat_inj m n : str_of_nat m = str_of_nat n -> m = n.
Proof. unfold str_of_nat. intros E%of_string_inj. by apply (inj pretty). Qed.

(** Decimal numerals contain no underscore. *)
Lemma pretty_N_go_no_underscore x s :
  Forall (fun c => c <> 95%N) (of_string s) ->
  Forall (fun c => c <> 95%N) (of_string (pretty_N_go x s)).
Proof.
  revert s. induction (N.lt_wf_0 x) as [x _ IH]. intros s Hs.
  assert (x = 0 \/ 0 < x)%N as [->|Hx] by lia.
  - by rewrite pretty_N_go_0.
  - rewrite pretty_N_go_step by done. apply IH.
    + by apply N.div_lt.
    + unfold of_string. simpl. constructor; [|exact Hs].
      unfold pretty_N_char. by repeat case_match.
Qed.

Lemma str_of_nat_no_underscore n :
  Forall (fun c => c <> 95%N) (str_of_nat n).
Proof.
  unfold str_of_nat, pretty, pretty_nat, pretty, pretty_N.
  case_decide.
  - by repeat constructor.
  - apply pretty_N_go_no_underscore. constructor.
Qed.

Lemma split_at_first {A} (x : A) k1 k2 t1 t2 :
  k1 ++ x :: t1 = k2 ++ x :: t2 ->
  Forall (fun c => c <> x) k1 -> Forall (fun c => c <> x) k2 ->
  k1 = k2 /\ t1 = t2.
Proof.
  revert k2. induction k1 as [|a k1 IH]; intros [|b k2]; simpl.
  - by intros [= ->].
  - intros [= <- _] _ Hb. by apply Forall_cons in Hb as [? _].
  - intros [= -> _] Ha _. by apply Forall_cons in Ha as [? _].
  - intros [= -> E] [_ Ha]%Forall_cons [_ Hb]%Forall_cons.
    by destruct (IH _ E Ha Hb) as [-> ->].
Qed.

Lemma split_at_last {A} (x : A) l1 l2 r1 r2 :
  l1 ++ x :: r1 = l2 ++ x :: r2 ->
  Forall (fun c => c <> x) r1 -> Forall (fun c => c <> x) r2 ->
  l1 = l2 /\ r1 = r2.
Proof.
  intros E H1 H2.
  apply (f_equal reverse) in E.
  rewrite !reverse_app, !reverse_cons, <- !app_assoc in E. simpl in E.
  apply split_at_first in E as [Hr Hl]; [|by apply Forall_reverse..].
  split; by apply (inj reverse).
Qed.

(** X11. Two chunks get the same id exactly when they agree on the file
    name and on the chunk number. *)
Lemma make_id_inj m1 m2 :
  VectorDatabase.make_id m1 = VectorDatabase.make_id m2
  <-> filename m1 = filename m2 /\ chunk_id m1 = chunk_id m2.
Proof.
  unfold VectorDatabase.make_id. split.
  - intros E. change (u "_") with [95%N] in E. simpl in E.
    apply split_at_last in E as [Hf Hn];
      [|apply str_of_nat_no_underscore..].
    split; [done | by apply str_of_nat_inj].
  - by intros [-> ->].
Qed.

End Ids.

Section Adding.
Context `{Embedder}.
Import VectorDatabase.

Lemma add_record_ids_NoDup c e :
  NoDup (entry_id <$> c) -> NoDup (entry_id <$> Chroma.add_record c e).
Proof.
  intros Hc. unfold Chroma.add_record. case_decide as He; [done|].
  rewrite fmap_app. apply NoDup_app. split; [done|]. split.
  - intros i Hi. simpl. rewrite list_elem_of_singleton. by intros ->.
  - apply NoDup_singleton.
Qed.

Lemma add_record_ids_mono c e i :
  i ∈ entry_id <$> c -> i ∈ entry_id <$> Chroma.add_record c e.
Proof.
  intros Hi. unfold Chroma.add_record. case_decide; [done|].
  rewrite fmap_app. apply elem_of_app. by left.
Qed.

Lemma add_record_filter c e i :
  i ∈ entry_id <$> c ->
  filter (fun x => entry_id x = i) (Chroma.add_record c e)
  = filter (fun x => entry_id x = i) c.
Proof.
  intros Hi. unfold Chroma.add_record. case_decide as He; [done|].
  rewrite filter_app, filter_cons_False, filter_nil, app_nil_r; [done|].
  by intros <-.
Qed.

Lemma foldl_add_record_ids_NoDup batch c :
  NoDup (entry_id <$> c) ->
  NoDup (entry_id <$> foldl Chroma.add_record c batch).
Proof.
  revert c. induction batch as [|e batch IH]; intros c Hc; simpl; [done|].
  by apply IH, add_record_ids_NoDup.
Qed.

Lemma foldl_add_record_filter batch c i :
  i ∈ entry_id <$> c ->
  filter (fun x => entry_id x = i) (foldl Chroma.add_record c batch)
  = filter (fun x => entry_id x = i) c.
Proof.
  revert c. induction batch as [|e batch IH]; intros c Hi; simpl; [done|].
  rewrite IH by by apply add_record_ids_mono. by apply add_record_filter.
Qed.

Lemma filter_absent_id (c : list Entry) i :
  i ∉ entry_id <$> c -> filter (fun x => entry_id x = i) c = [].
Proof.
  induction c as [|y c IH]; csimpl; [done|].
  intros [Hy Hc]%not_elem_of_cons.
  rewrite filter_cons_False by (by intros Heq; apply Hy). by apply IH.
Qed.

(** With unique ids, the records carrying the id of a stored record are
    that record alone. *)
Lemma filter_unique_id c e :
  NoDup (entry_id <$> c) -> e ∈ c ->
  filter (fun x => entry_id x = entry_id e) c = [e].
Proof.
  induction c as [|x c IH]; csimpl; [by intros _ ?%elem_of_nil|].
  intros [Hx Hc]%NoDup_cons [->|He]%elem_of_cons.
  - rewrite filter_cons_True by done. f_equal. by apply filter_absent_id.
  - rewrite filter_cons_False; [by apply IH|].
    intros Hxe. apply Hx. rewrite Hxe. by apply list_elem_of_fmap_2.
Qed.

(** What [add_documents] leaves in the collection. *)
Lemma add_documents_collection documents w :
  collection (add_documents documents w).2 = collection w
  \/ exists batch,
      collection (add_documents documents w).2
      = foldl Chroma.add_record (collection w) batch.
Proof.
  unfold add_documents. case_decide; [by left|]. run. unfold Chroma.add.
  case_decide; simpl; [right; eauto | by left].
Qed.

(** C1 (amended). The collection never holds two records with the same
    id.  Adding a document whose id [filename_chunk_id] is already stored
    leaves exactly one record under that id, and it is the record that was
    stored before: the new content is not written. *)
Theorem add_documents_keeps_stored_record documents doc e w :
  NoDup (entry_id <$> collection w) ->
  doc ∈ documents ->
  e ∈ collection w ->
  entry_id e = make_id (metadata doc) ->
  let w' := (add_documents documents w).2 in
  NoDup (entry_id <$> collection w')
  /\ filter (fun x => entry_id x = make_id (metadata doc)) (collection w') = [e].
Proof.
  intros Hnodup _ He Hid w'. subst w'. rewrite <- Hid.
  destruct (add_documents_collection documents w) as [->|[batch ->]].
  - split; [done | by apply filter_unique_id].
  - split; [by apply foldl_add_record_ids_NoDup|].
    rewrite foldl_add_record_filter by by apply list_elem_of_fmap_2.
    by apply filter_unique_id.
Qed.

End Adding.

Lemma add_documents_keeps_stored_record_witness :
  let stored := Sample.entry_of (Sample.doc "manual.pdf" 0 1 "old text") in
  let doc := Sample.doc "manual.pdf" 0 1 "new text" in
  let w := Sample.world [stored] Sample.online in
  let w' := (VectorDatabase.add_documents (H := Sample.embedder) [doc] w).2 in
  NoDup (entry_id <$> collection w')
  /\ filter (fun x => entry_id x = VectorDatabase.make_id (metadata doc))
            (collection w') = [stored].
Proof.
  intros stored doc w.
  apply (add_documents_keeps_stored_record (H := Sample.embedder)
           [doc] doc stored w).
  - vm_compute. apply NoDup_singleton.
  - apply list_elem_of_singleton. reflexivity.
  - apply list_elem_of_singleton. reflexivity.
  - vm_compute. reflexivity.
Defined.

(** C1 (counterexample). Re-adding [manual.pdf], chunk 0, with new content
    succeeds and leaves the old content in the collection. *)
Lemma add_documents_does_not_overwrite :
  let stored := Sample.entry_of (Sample.doc "manual.pdf" 0 1 "old text") in
  let doc := Sample.doc "manual.pdf" 0 1 "new text" in
  let w := Sample.world [stored] Sample.online in
  let r := VectorDatabase.add_documents (H := Sample.embedder) [doc] w in
  r.1 = inr tt
  /\ entry_id stored = VectorDatabase.make_id (metadata doc)
  /\ entry_document <$> collection r.2 = [u "old text"]
  /\ entry_document <$> collection r.2 <> [content doc].
Proof. vm_compute. repeat split; discriminate. Qed.

(** ** The completion backend *)

Section Backend.
Import RAGService.

Ltac diagnose :=
  run; eexists _, _; split; [reflexivity|]; split; [reflexivity|]; intros _;
  lazymatch goal with
  | |- diagnostic LMSTUDIO_CONNECT_ERROR => exact diagnostic_connect
  | |- diagnostic LMSTUDIO_UNAVAILABLE => exact diagnostic_unavailable
  | |- diagnostic (lmstudio_api_error _ _) => exact (diagnostic_api _ _)
  | |- diagnostic (lmstudio_call_error _) => exact (diagnostic_call _)
  end.

(** [_call_lmstudio] always returns a string, never touches the
    collection, and returns a diagnostic when the backend fails. *)
Lemma call_lmstudio_run prompt model w :
  exists a w',
    _call_lmstudio prompt model w = (inr a, w')
    /\ collection w' = collection w
    /\ (backend_fails (lmstudio w) -> diagnostic a).
Proof.
  unfold _call_lmstudio, client_get, client_post. run.
  destruct (decide (u "/health" = u "/health")) as [_|?]; [|done].
  destruct (health (lmstudio w)) as [e|health_response] eqn:Hhealth; run.
  { destruct e; diagnose. }
  destruct (decide (status health_response ≠ 200)) as [Hdown|Hup]; run.
  { diagnose. }
  set (payload := make_payload _ prompt).
  destruct (chat (lmstudio w) payload) as [e|response] eqn:Hchat; run.
  { destruct e; diagnose. }
  destruct (decide (status response = 200)) as [Hok|Hbad]; run.
  - destruct (json_completion response) as [e|completion] eqn:Hjson; run.
    + destruct e; diagnose.
    + eexists _, _. split; [reflexivity|]. split; [reflexivity|].
      intros [Hfail|Hfail].
      * rewrite Hhealth in Hfail. contradiction.
      * specialize (Hfail payload). rewrite Hchat in Hfail. contradiction.
  - diagnose.
Qed.

(** C6 (amended). When no model is given and the health probe succeeds,
    the completion request names the configured default model, whatever
    the refreshed model list contains. *)
Theorem call_lmstudio_default_model prompt model health_response w :
  truthy model = false ->
  health (lmstudio w) = inr health_response ->
  status health_response = 200 ->
  trace (_call_lmstudio prompt model w).2
  = trace w ++ [HttpGet (u "/health");
                HttpPost (u "/chat/completions")
                         (make_payload LMSTUDIO_MODEL prompt)
                         [(u "Authorization", u "Bearer lm-studio")]].
Proof.
  intros Hmodel Hhealth Hup.
  unfold _call_lmstudio, client_get, client_post. run.
  destruct (decide (u "/health" = u "/health")) as [_|?]; [|done].
  rewrite Hhealth. run.
  destruct (decide (status health_response ≠ 200)) as [?|_]; [done|].
  rewrite Hmodel. run.
  set (payload := make_payload _ prompt).
  destruct (chat (lmstudio w) payload) as [e|response]; run.
  { destruct e; run; by rewrite <- app_assoc. }
  destruct (decide (status response = 200)) as [Hok|Hbad]; run;
    [|by rewrite <- app_assoc].
  destruct (json_completion response) as [e|completion]; run;
    [destruct e|]; run; by rewrite <- app_assoc.
Qed.

End Backend.

Lemma call_lmstudio_default_model_witness :
  trace (RAGService._call_lmstudio (u "prompt") None
           (Sample.world [] Sample.online)).2
  = [HttpGet (u "/health");
     HttpPost (u "/chat/completions")
              (RAGService.make_payload LMSTUDIO_MODEL (u "prompt"))
              [(u "Authorization", u "Bearer lm-studio")]].
Proof.
  apply (call_lmstudio_default_model (u "prompt") None (Sample.ok "ok")
           (Sample.world [] Sample.online)); reflexivity.
Defined.

(** C6 (counterexample). The server advertises a single model, which is
    not the configured default.  After the model list has been refreshed,
    a call without a model still asks for the default, not for the first
    entry of the list. *)
Lemma call_lmstudio_ignores_model_list :
  let w := (RAGService._refresh_available_models
              (Sample.world [] Sample.online)).2 in
  available_models w = [u "other-model"]
  /\ (LMSTUDIO_MODEL ∉ available_models w)
  /\ RAGService.posted_models
       (trace (RAGService._call_lmstudio (u "prompt") None w).2)
     = [LMSTUDIO_MODEL]
  /\ RAGService.posted_models
       (trace (RAGService._call_lmstudio (u "prompt") None w).2)
     <> [u "other-model"].
Proof.
  vm_compute. repeat split; try discriminate.
  intros Hin. apply list_elem_of_singleton in Hin. discriminate.
Qed.

(** ** The query operation *)

Section Query.
Context `{Embedder, Metric, FloatFormat}.
Import RAGService.


(** X26. On an empty collection [query] returns the three-key dictionary
    of its early return, whatever the question and the backend; the only
    effects are the embedding of the question and the collection query:
    the backend is not contacted. *)
Lemma query_empty_collection question n_docs w :
  collection w = [] ->
  0 < default MAX_RETRIEVED_DOCS n_docs ->
  exists w',
    query question n_docs w
    = (inr (<["answer" := VStr NO_RELEVANT_INFORMATION]>
            (<["sources" := VList []]>
            (<["query" := VStr question]> ∅))), w')
    /\ trace w' = trace w ++ [Encode [question];
                              CollectionQuery
                                (default MAX_RETRIEVED_DOCS n_docs)].
Proof.
  intros Hempty Hn. unfold query.
  set (n := default MAX_RETRIEVED_DOCS n_docs) in *.
  destruct (search_run question (Some n) w Hn) as (w1 & Hs & _ & _ & Ht).
  simpl in Hs, Ht. run. rewrite Hs, Hempty, nearest_nil. simpl.
  eexists. split; [reflexivity | exact Ht].
Qed.

(** The early-return dictionary cannot be turned into a [QueryResponse]. *)
Lemma early_return_fails_validation question :
  Api.make_QueryResponse
    (<["answer" := VStr NO_RELEVANT_INFORMATION]>
     (<["sources" := VList []]>
     (<["query" := VStr question]> ∅)))
  = inl (ValidationError "retrieved_docs").
Proof.
  unfold Api.make_QueryResponse.
  rewrite lookup_insert_eq.
  rewrite lookup_insert_ne, lookup_insert_eq by done.
  by rewrite !lookup_insert_ne, lookup_empty by done.
Qed.

(** The status the route answers with for a blank question: the 400
    raised inside the [try] block is caught by its own handler. *)
Lemma query_rag_blank_status question max_docs w :
  strip question = [] ->
  Api.raised_status (Api.query_rag question max_docs w).1 = Some 500.
Proof.
  intros Hblank. unfold Api.query_rag.
  destruct (decide (strip question = [])) as [_|?]; [|done].
  run. reflexivity.
Qed.

(** C3 (amended). The [/query] route rejects an empty or whitespace-only
    question with an HTTP error before calling the service: the world,
    and with it the trace of embeddings, collection calls and backend
    calls, is unchanged. *)
Theorem query_rag_rejects_blank question max_docs w :
  strip question = [] ->
  exists status_code detail,
    Api.query_rag question max_docs w
    = (inl (HTTPException status_code detail), w).
Proof.
  intros Hblank. unfold Api.query_rag.
  destruct (decide (strip question = [])) as [_|?]; [|done].
  run. eexists _, _. reflexivity.
Qed.

End Query.


Lemma query_rag_rejects_blank_witness :
  let w := Sample.world (Sample.entry_of <$> Sample.manual) Sample.online in
  exists status_code detail,
    Api.query_rag (H := Sample.embedder) (H0 := Sample.metric)
      (H1 := Sample.fmt) (u "   ") None w
    = (inl (HTTPException status_code detail), w).
Proof.
  intros w.
  apply (query_rag_rejects_blank (H := Sample.embedder) (H0 := Sample.metric)
           (H1 := Sample.fmt) (u "   ") None w).
  reflexivity.
Defined.

(** C3 (counterexample). [RAGService.query] itself has no such check: a
    whitespace-only question is embedded, searched and sent to the
    backend, and an answer comes back. *)
Lemma query_accepts_blank_question :
  let blank := u "   " in
  let w := Sample.world (Sample.entry_of <$> Sample.manual) Sample.online in
  let r := RAGService.query (H := Sample.embedder) (H0 := Sample.metric)
             (H1 := Sample.fmt) blank None w in
  strip blank = []
  /\ Api.returned "answer" r.1 = Some (VStr (u "answer"))
  /\ Api.returned "retrieved_docs" r.1 = Some (VInt 2)
  /\ take 3 (trace r.2)
     = [Encode [blank]; CollectionQuery 5; HttpGet (u "/health")]
  /\ length (trace r.2) = 4%nat.
Proof.
  intros blank w r.
  split; [reflexivity|].
  split; [vm_compute; reflexivity|].
  split; [vm_compute; reflexivity|].
  split; vm_compute; reflexivity.
Qed.

(** C2. On an empty collection the dictionary returned by [query] has the
    fixed answer and no sources, but neither [retrieved_docs] nor
    [context_length]; the [/query] route, whose response model requires
    both, turns it into an HTTP 500 error. *)
Theorem query_empty_collection_omits_counts :
  let w := Sample.world [] Sample.online in
  let r := RAGService.query (H := Sample.embedder) (H0 := Sample.metric)
             (H1 := Sample.fmt) (u "x") None w in
  Api.returned "answer" r.1 = Some (VStr RAGService.NO_RELEVANT_INFORMATION)
  /\ Api.returned "sources" r.1 = Some (VList [])
  /\ Api.returned "retrieved_docs" r.1 = None
  /\ Api.returned "context_length" r.1 = None
  /\ Api.raised_status
       (Api.query_rag (H := Sample.embedder) (H0 := Sample.metric)
          (H1 := Sample.fmt) (u "x") None w).1 = Some 500.
Proof.
  intros w r.
  split; [vm_compute; reflexivity|].
  split; [vm_compute; reflexivity|].
  split; [vm_compute; reflexivity|].
  split; vm_compute; reflexivity.
Qed.

(** * Further properties *)

(** ** Text normalisation and document processing *)

Section MoreCleaning.
Import DocumentProcessor.

(** X1. For every input, the result of [clean_text] contains none of the
    stripped control characters and neither starts nor ends with a
    whitespace character. *)
Theorem clean_text_output_clean text :
  Forall (fun c => is_control c = false) (clean_text text)
  /\ (forall c, head (clean_text text) = Some c -> isspace c = false)
  /\ (forall c, last (clean_text text) = Some c -> isspace c = false).
Proof.
  split; [apply clean_text_no_control|].
  split; intros c; apply (clean_text_stripped text c).
Qed.

(** X2. On text without removable control characters the second
    substitution of [clean_text] changes nothing, the result has no run
    of whitespace, and [clean_text] is idempotent. *)
Theorem clean_text_idempotent_on_control_free text :
  Forall (fun c => removable c = false) text ->
  clean_text text = strip (sub_whitespace false text)
  /\ single_spaced false (clean_text text) = true
  /\ clean_text (clean_text text) = clean_text text.
Proof.
  intros Htext. split.
  - unfold clean_text.
    by rewrite (sub_control_fixed _ (sub_whitespace_no_control false _ Htext)).
  - by apply clean_text_idempotent_without_control.
Qed.

(** X3. For every input, applying [clean_text] twice reaches a fixed
    point in whitespace normal form: a third application changes
    nothing. *)
Theorem clean_text_twice_is_fixed text :
  single_spaced false (clean_text (clean_text text)) = true
  /\ clean_text (clean_text (clean_text text)) = clean_text (clean_text text).
Proof.
  apply clean_text_idempotent_without_control.
  eapply Forall_impl; [apply clean_text_no_control|].
  intros c Hc. unfold removable. by rewrite Hc.
Qed.

Lemma sub_whitespace_blank b text :
  Forall (fun c => isspace c = true \/ is_control c = true) text ->
  Forall (fun c => c = 32%N \/ is_control c = true) (sub_whitespace b text).
Proof.
  intros Htext. revert b.
  induction Htext as [|c rest Hc _ IH]; intros b; simpl; [done|].
  destruct (isspace c) eqn:Hsp.
  - destruct b; [apply IH|]. constructor; [by left | apply IH].
  - constructor; [|apply IH]. destruct Hc as [Hc|Hc]; [congruence | by right].
Qed.

Lemma sub_control_blank text :
  Forall (fun c => c = 32%N \/ is_control c = true) text ->
  Forall (fun c => isspace c = true) (sub_control text).
Proof.
  unfold sub_control.
  induction 1 as [|c rest Hc _ IH]; simpl; [done|].
  destruct (is_control c) eqn:Hctl; simpl; [exact IH|].
  constructor; [|exact IH]. destruct Hc as [->|Hc]; [done | congruence].
Qed.

Lemma lstrip_blank text :
  Forall (fun c => isspace c = true) text -> lstrip text = [].
Proof. induction 1 as [|c rest Hc _ IH]; simpl; [done|]. by rewrite Hc. Qed.

(** X4. Text made only of whitespace and stripped control characters is
    cleaned to the empty string. *)
Theorem clean_text_blank text :
  Forall (fun c => isspace c = true \/ is_control c = true) text ->
  clean_text text = [].
Proof.
  intros Htext. unfold clean_text, strip.
  by rewrite (lstrip_blank _ (sub_control_blank _
                (sub_whitespace_blank false _ Htext))).
Qed.

End MoreCleaning.

Lemma clean_text_idempotent_on_control_free_witness :
  let text := u "  Extension   modules " ++ nl ++ u "allow integrations. " in
  DocumentProcessor.clean_text text
  = strip (DocumentProcessor.sub_whitespace false text)
  /\ DocumentProcessor.single_spaced false (DocumentProcessor.clean_text text)
     = true
  /\ DocumentProcessor.clean_text (DocumentProcessor.clean_text text)
     = DocumentProcessor.clean_text text.
Proof.
  intros text. apply (clean_text_idempotent_on_control_free text).
  apply (bool_decide_unpack _). vm_compute. exact I.
Defined.

Lemma clean_text_blank_witness :
  DocumentProcessor.clean_text ([32; 0; 9; 10; 27; 160; 32]%N) = [].
Proof.
  apply (clean_text_blank [32; 0; 9; 10; 27; 160; 32]%N).
  repeat (constructor; [first [left; reflexivity | right; reflexivity]|]).
  constructor.
Defined.

Section MoreProcessing.
Context `{TextSplitter, PdfReader, Pathlib}.
Import DocumentProcessor.

(** What [extract_text_from_pdf] returns: the cleaned page texts, or the
    empty string when the PDF library raised. *)
Lemma extract_text_from_pdf_run pdf_path w :
  extract_text_from_pdf pdf_path w
  = (inr match pdf_pages pdf_path with
         | inl _ => []
         | inr pages => clean_text (page_texts 0 pages)
         end, w).
Proof.
  unfold extract_text_from_pdf. run. by destruct (pdf_pages pdf_path).
Qed.

(** X5. [extract_text_from_pdf] never raises and touches nothing: it
    returns cleaned text, and the empty string when the PDF library
    fails. *)
Theorem extract_text_from_pdf_never_raises pdf_path w :
  exists text,
    extract_text_from_pdf pdf_path w = (inr text, w)
    /\ Forall (fun c => is_control c = false) text
    /\ (forall c, head text = Some c -> isspace c = false)
    /\ (forall e, pdf_pages pdf_path = inl e -> text = []).
Proof.
  rewrite extract_text_from_pdf_run. eexists. split; [reflexivity|].
  destruct (pdf_pages pdf_path) as [e|pages].
  - split; [constructor|]. split; [discriminate | done].
  - split; [apply clean_text_no_control|].
    split; [|discriminate]. intros c. apply (clean_text_stripped _ c).
Qed.

(** The two ways [process_document] can end: the file is missing, or its
    text is split (into nothing when the text is blank). *)
Lemma process_document_cases file_path w :
  (files w !! file_path = None
   /\ exists msg, process_document file_path w
                  = (inl (FileNotFoundError msg), w))
  \/ (files w !! file_path <> None
      /\ exists text w',
          process_document file_path w
          = (inr (if decide (strip text = []) then []
                  else attach_metadata file_path (split_text text)), w')
          /\ files w' = files w
          /\ collection w' = collection w
          /\ lmstudio w' = lmstudio w
          /\ (if decide (lower (path_suffix file_path) = u ".pdf")
              then w' = w
                   /\ text = match pdf_pages (path_str file_path) with
                             | inl _ => []
                             | inr pages => clean_text (page_texts 0 pages)
                             end
              else trace w' = trace w ++ [FileRead file_path]
                   /\ files w !! file_path = Some text)).
Proof.
  unfold process_document. run.
  destruct (decide (files w !! file_path = None)) as [Hnone|Hsome].
  { left. split; [done|]. eexists. reflexivity. }
  right. split; [done|].
  destruct (decide (lower (path_suffix file_path) = u ".pdf")) as [Hpdf|Htxt].
  - rewrite extract_text_from_pdf_run.
    set (text := match pdf_pages (path_str file_path) with
                 | inl _ => []
                 | inr pages => clean_text (page_texts 0 pages)
                 end).
    exists text, w. split; [by destruct (decide (strip text = []))|].
    repeat split; by rewrite decide_True.
  - unfold read_file. run.
    destruct (files w !! file_path) as [text|] eqn:Hfile; [|done]. run.
    eexists text, _. split; [by destruct (decide (strip text = []))|].
    repeat split; by rewrite decide_False.
Qed.

(** X6. A PDF file that the PDF library cannot read yields no chunks and
    no error, and nothing is recorded. *)
Theorem process_document_unreadable_pdf file_path e w :
  files w !! file_path <> None ->
  lower (path_suffix file_path) = u ".pdf" ->
  pdf_pages (path_str file_path) = inl e ->
  process_document file_path w = (inr [], w).
Proof.
  intros Hfile Hpdf Hfail.
  destruct (process_document_cases file_path w)
    as [[Hnone _]|(_ & text & w' & -> & _ & _ & _ & Hkind)]; [done|].
  destruct (decide (lower (path_suffix file_path) = u ".pdf")); [|done].
  destruct Hkind as [-> ->]. by rewrite Hfail.
Qed.

(** X7. For a text file that is not blank, the chunks returned by
    [process_document] carry exactly the pieces the splitter returns, in
    order, each with the file's name and path; the only effect is reading
    the file. *)
Theorem process_document_text_file file_path text w :
  files w !! file_path = Some text ->
  lower (path_suffix file_path) <> u ".pdf" ->
  strip text <> [] ->
  exists processed w',
    process_document file_path w = (inr processed, w')
    /\ content <$> processed = split_text text
    /\ Forall (fun c => filename (metadata c) = path_name file_path
                        /\ source (metadata c) = path_str file_path) processed
    /\ trace w' = trace w ++ [FileRead file_path]
    /\ collection w' = collection w.
Proof.
  intros Hfile Htxt Hblank.
  destruct (process_document_cases file_path w)
    as [[Hnone _]|(_ & text' & w' & -> & _ & Hc & _ & Hkind)]; [congruence|].
  destruct (decide (lower (path_suffix file_path) = u ".pdf")); [done|].
  destruct Hkind as [Ht Hfile']. assert (text' = text) as -> by congruence.
  destruct (decide (strip text = [])); [done|].
  eexists _, w'. split; [reflexivity|].
  split; [apply attach_metadata_content|].
  split; [|done].
  apply Forall_forall. intros c Hin. unfold attach_metadata in Hin.
  by apply elem_of_lookup_imap_1 in Hin as (i & y & -> & _).
Qed.

(** X8. A missing file makes [process_document] raise
    [FileNotFoundError] before anything is read, for PDF and text files
    alike. *)
Theorem process_document_missing_file file_path w :
  files w !! file_path = None ->
  exists msg,
    process_document file_path w = (inl (FileNotFoundError msg), w).
Proof.
  intros Hnone.
  destruct (process_document_cases file_path w)
    as [[_ Hraise]|[Hsome _]]; [exact Hraise | done].
Qed.

Lemma attach_metadata_in_range file_path chunks :
  Forall (fun c => (chunk_id (metadata c) < total_chunks (metadata c))%nat)
         (attach_metadata file_path chunks).
Proof.
  apply Forall_forall. intros c Hin. unfold attach_metadata in Hin.
  apply elem_of_lookup_imap_1 in Hin as (i & y & -> & Hi). simpl.
  by apply lookup_lt_Some in Hi.
Qed.

End MoreProcessing.

Section MoreDirectory.
Context `{TextSplitter, PdfReader, Pathlib, FileSystem}.
Import DocumentProcessor.

Lemma process_files_run all paths all_chunks w :
  (forall file_path, file_path ∈ paths -> file_path ∈ all) ->
  Forall (chunk_from all) all_chunks ->
  exists chunks w',
    process_files paths all_chunks w = (inr chunks, w')
    /\ Forall (chunk_from all) chunks
    /\ all_chunks `prefix_of` chunks
    /\ files w' = files w
    /\ collection w' = collection w
    /\ lmstudio w' = lmstudio w.
Proof.
  revert all_chunks w.
  induction paths as [|file_path rest IH]; intros all_chunks w Hall Hacc.
  { exists all_chunks, w. by repeat split. }
  assert (forall p, p ∈ rest -> p ∈ all) as Hrest.
  { intros p Hp. apply Hall. by apply list_elem_of_further. }
  simpl. run.
  destruct (bool_decide (is_Some (files w !! file_path))
            && supported_suffix file_path) eqn:Hcond; [|by apply IH].
  apply andb_prop in Hcond as [_ Hsupported].
  destruct (process_document_cases (path_str file_path) w)
    as [(_ & msg & ->)
       |(_ & text & w1 & -> & Hf1 & Hc1 & Hl1 & _)].
  - destruct (IH all_chunks w Hrest Hacc)
      as (chunks & w' & -> & ?). by exists chunks, w'.
  - set (new := if decide (strip text = []) then []
                else attach_metadata (path_str file_path) (split_text text)).
    assert (Forall (chunk_from all) (all_chunks ++ new)) as Hnew.
    { apply Forall_app. split; [done|]. unfold new.
      destruct (decide (strip text = [])); [constructor|].
      apply Forall_forall. intros c Hc. split.
      - revert c Hc. apply Forall_forall, attach_metadata_in_range.
      - exists file_path. split; [apply Hall, list_elem_of_here|].
        split; [done|]. unfold attach_metadata in Hc.
        by apply elem_of_lookup_imap_1 in Hc as (i & y & -> & _). }
    destruct (IH (all_chunks ++ new) w1 Hrest Hnew)
      as (chunks & w' & -> & Hgood & Hpre & Hf & Hc & Hl).
    exists chunks, w'. split; [done|]. split; [done|].
    split; [by etrans; [apply prefix_app_r|]|].
    by rewrite Hf, Hc, Hl.
Qed.

(** X9. [process_directory] never raises: a file whose processing fails
    is skipped.  Every chunk it returns is numbered below its file's
    chunk count and named after a listed file with a supported suffix;
    the collection is not touched. *)
Theorem process_directory_never_raises directory w :
  exists chunks w',
    process_directory directory w = (inr chunks, w')
    /\ Forall (chunk_from (rglob (default DOCS_DIR directory))) chunks
    /\ collection w' = collection w
    /\ files w' = files w.
Proof.
  unfold process_directory.
  destruct (process_files_run (rglob (default DOCS_DIR directory))
              (rglob (default DOCS_DIR directory)) [] w)
    as (chunks & w' & Hrun & Hgood & _ & Hf & Hc & _); [done | constructor|].
  by exists chunks, w'.
Qed.

(** X10. A directory in which no listed path is a file with a supported
    suffix yields no chunks, and nothing is read. *)
Theorem process_directory_nothing_supported directory w :
  Forall (fun file_path => files w !! file_path = None
                           \/ supported_suffix file_path = false)
         (rglob (default DOCS_DIR directory)) ->
  process_directory directory w = (inr [], w).
Proof.
  unfold process_directory. generalize (rglob (default DOCS_DIR directory)).
  induction 1 as [|file_path rest Hskip _ IH]; [done|].
  simpl. run.
  destruct (bool_decide (is_Some (files w !! file_path))
            && supported_suffix file_path) eqn:Hcond; [|exact IH].
  apply andb_prop in Hcond as [Hfile%bool_decide_eq_true Hsupported].
  destruct Hskip as [Hnone|Hnot]; [|congruence].
  rewrite Hnone in Hfile. by destruct Hfile.
Qed.

End MoreDirectory.

Lemma process_document_unreadable_pdf_witness :
  let w := {| files := {[ u "scan.pdf" := [] ]};
              collection := []; lmstudio := Sample.offline;
              available_models := []; current_model := None; trace := [] |} in
  DocumentProcessor.process_document
    (H := Sample.splitter) (H0 := Sample.no_pdf) (H1 := Sample.dotted_paths)
    (u "scan.pdf") w = (inr [], w).
Proof.
  intros w.
  apply (process_document_unreadable_pdf
           (H := Sample.splitter) (H0 := Sample.no_pdf)
           (H1 := Sample.dotted_paths) (u "scan.pdf")
           (OtherError (u "no pdf")) w).
  - vm_compute. discriminate.
  - vm_compute. reflexivity.
  - reflexivity.
Defined.

Lemma process_document_text_file_witness :
  let w := Sample.world_with_files [] Sample.offline in
  exists processed w',
    DocumentProcessor.process_document
      (H := Sample.splitter) (H0 := Sample.no_pdf) (H1 := Sample.dotted_paths)
      (u "guide.txt") w = (inr processed, w')
    /\ content <$> processed = Sample.splitter (u "alpha beta")
    /\ Forall (fun c => filename (metadata c) = u "guide.txt"
                        /\ source (metadata c) = u "guide.txt") processed
    /\ trace w' = trace w ++ [FileRead (u "guide.txt")]
    /\ collection w' = collection w.
Proof.
  intros w.
  apply (process_document_text_file
           (H := Sample.splitter) (H0 := Sample.no_pdf)
           (H1 := Sample.dotted_paths) (u "guide.txt") (u "alpha beta") w).
  - vm_compute. reflexivity.
  - vm_compute. discriminate.
  - vm_compute. discriminate.
Defined.

Lemma process_document_missing_file_witness :
  let w := Sample.world_with_files [] Sample.offline in
  exists msg,
    DocumentProcessor.process_document
      (H := Sample.splitter) (H0 := Sample.no_pdf) (H1 := Sample.dotted_paths)
      (u "absent.txt") w = (inl (FileNotFoundError msg), w).
Proof.
  intros w.
  apply (process_document_missing_file
           (H := Sample.splitter) (H0 := Sample.no_pdf)
           (H1 := Sample.dotted_paths) (u "absent.txt") w).
  vm_compute. reflexivity.
Defined.

Lemma process_directory_nothing_supported_witness :
  let w := {| files := {[ u "logo.png" := u "binary" ]};
              collection := []; lmstudio := Sample.offline;
              available_models := []; current_model := None; trace := [] |} in
  DocumentProcessor.process_directory
    (H := Sample.splitter) (H0 := Sample.no_pdf) (H1 := Sample.dotted_paths)
    (H2 := Sample.tree) None w = (inr [], w).
Proof.
  intros w.
  apply (process_directory_nothing_supported
           (H := Sample.splitter) (H0 := Sample.no_pdf)
           (H1 := Sample.dotted_paths) (H2 := Sample.tree) None w).
  repeat (constructor; [first [left; vm_compute; reflexivity
                              | right; vm_compute; reflexivity]|]).
  constructor.
Defined.

(** ** The collection: more on adding and searching *)

#[global] Instance str_le_total : Total str_le.
Proof.
  intros s. unfold str_le.
  induction s as [|a s IH]; intros [|b t]; simpl; auto.
  destruct (a <? b)%N eqn:Hab; [by left|].
  destruct (b <? a)%N eqn:Hba; [by right|].
  apply N.ltb_ge in Hab, Hba.
  assert (a = b) as -> by lia. rewrite N.eqb_refl. apply IH.
Qed.

Section MoreAdding.
Context `{Embedder}.
Import VectorDatabase.

Lemma records_entries_of documents :
  Chroma.records ((fun doc => make_id (metadata doc)) <$> documents)
    (encode <$> (content <$> documents)) (content <$> documents)
    (metadata <$> documents)
  = entries_of documents.
Proof.
  unfold entries_of. induction documents as [|doc rest IH]; csimpl; [done|].
  by rewrite IH.
Qed.

Lemma entries_of_ids documents :
  entry_id <$> entries_of documents
  = (fun doc => make_id (metadata doc)) <$> documents.
Proof. unfold entries_of. by rewrite <- list_fmap_compose. Qed.

Lemma foldl_add_record_prefix batch c :
  c `prefix_of` foldl Chroma.add_record c batch.
Proof.
  revert c. induction batch as [|e batch IH]; intros c; simpl; [done|].
  etrans; [|apply IH]. unfold Chroma.add_record.
  case_decide; [done | apply prefix_app_r; done].
Qed.

Lemma foldl_add_record_fresh batch c :
  NoDup (entry_id <$> batch) ->
  (forall i, i ∈ entry_id <$> batch -> i ∉ entry_id <$> c) ->
  foldl Chroma.add_record c batch = c ++ batch.
Proof.
  revert c. induction batch as [|e batch IH]; intros c Hnodup Hfresh; simpl.
  { by rewrite app_nil_r. }
  csimpl in Hnodup. apply NoDup_cons in Hnodup as [He Hnodup].
  unfold Chroma.add_record at 2.
  rewrite decide_False by (apply Hfresh; csimpl; apply list_elem_of_here).
  rewrite IH, <- app_assoc; [done | done |].
  intros i Hi. rewrite fmap_app. intros [Hc|Hin]%elem_of_app.
  - revert Hc. apply Hfresh. csimpl. by apply list_elem_of_further.
  - csimpl in Hin. apply list_elem_of_singleton in Hin. by subst i.
Qed.

(** What a non-empty [add_documents] does up to the call of the
    collection. *)
Lemma add_documents_run documents w :
  documents <> [] ->
  let ids := (fun doc => make_id (metadata doc)) <$> documents in
  exists w1,
    trace w1 = trace w ++ [Encode (content <$> documents); CollectionAdd ids]
    /\ collection w1 = collection w
    /\ lmstudio w1 = lmstudio w
    /\ files w1 = files w
    /\ add_documents documents w
       = if decide (NoDup ids)
         then set_collection
                (foldl Chroma.add_record (collection w) (entries_of documents))
                w1
         else (inl DuplicateIDError, w1).
Proof.
  intros Hne ids. unfold add_documents.
  destruct (decide (documents = [])) as [?|_]; [done|]. run.
  unfold Chroma.add. rewrite records_entries_of. subst ids.
  eexists. split; [|split; [|split; [|split]]]; [| | | |
    destruct (decide (NoDup _)); reflexivity]; simpl; try done.
  by rewrite <- app_assoc.
Qed.

(** X12. Adding documents whose ids are pairwise distinct and not yet in
    the collection appends one record per document, in order, holding the
    document's id, embedding, content and metadata. *)
Theorem add_documents_fresh_keys documents w :
  NoDup ((fun doc => make_id (metadata doc)) <$> documents) ->
  (forall doc, doc ∈ documents ->
     make_id (metadata doc) ∉ entry_id <$> collection w) ->
  exists w',
    add_documents documents w = (inr tt, w')
    /\ collection w' = collection w ++ entries_of documents
    /\ length (collection w')
       = (length (collection w) + length documents)%nat.
Proof.
  intros Hnodup Hfresh.
  destruct (decide (documents = [])) as [->|Hne].
  { exists w. unfold add_documents, entries_of. simpl.
    rewrite app_nil_r. split; [done|]. split; [done | lia]. }
  destruct (add_documents_run documents w Hne) as (w1 & _ & _ & _ & _ & ->).
  rewrite decide_True by done. unfold set_collection. eexists.
  split; [reflexivity|]. simpl.
  rewrite foldl_add_record_fresh.
  - split; [done|]. unfold entries_of. by rewrite length_app, length_fmap.
  - by rewrite entries_of_ids.
  - intros i. rewrite entries_of_ids.
    intros (doc & -> & Hdoc)%list_elem_of_fmap. by apply Hfresh.
Qed.

(** X13. A batch that repeats an id is rejected as a whole: the
    embeddings are computed, the collection raises, and nothing is
    stored. *)
Theorem add_documents_duplicate_batch documents w :
  ~ NoDup ((fun doc => make_id (metadata doc)) <$> documents) ->
  exists w',
    add_documents documents w = (inl DuplicateIDError, w')
    /\ collection w' = collection w
    /\ trace w'
       = trace w ++ [Encode (content <$> documents);
                     CollectionAdd
                       ((fun doc => make_id (metadata doc)) <$> documents)].
Proof.
  intros Hdup.
  assert (documents <> []) as Hne.
  { intros ->. apply Hdup. constructor. }
  destruct (add_documents_run documents w Hne) as (w1 & Ht & Hc & _ & _ & ->).
  rewrite decide_False by done. by exists w1.
Qed.

(** X14. [add_documents] never removes or changes a stored record: the
    old collection is a prefix of the new one, whether the call succeeds
    or raises. *)
Theorem add_documents_keeps_collection documents w :
  collection w `prefix_of` collection (add_documents documents w).2
  /\ files (add_documents documents w).2 = files w
  /\ lmstudio (add_documents documents w).2 = lmstudio w.
Proof.
  destruct (decide (documents = [])) as [->|Hne]; [done|].
  destruct (add_documents_run documents w Hne) as (w1 & _ & Hc & Hl & Hf & ->).
  destruct (decide (NoDup _)); simpl.
  - split; [apply foldl_add_record_prefix | done].
  - by rewrite Hc.
Qed.

(** X15. Clearing the collection and then adding documents with pairwise
    distinct ids leaves exactly one record per document, whatever the
    collection held before. *)
Theorem clear_then_add_documents documents w :
  NoDup ((fun doc => make_id (metadata doc)) <$> documents) ->
  exists w',
    (_ ← clear_collection; add_documents documents) w = (inr tt, w')
    /\ collection w' = entries_of documents
    /\ entry_document <$> collection w' = content <$> documents.
Proof.
  intros Hnodup. unfold clear_collection. run.
  set (w0 := {| files := files w; collection := []; lmstudio := lmstudio w;
                available_models := available_models w;
                current_model := current_model w;
                trace := trace w ++ [CollectionReset] |}).
  assert (entry_document <$> entries_of documents = content <$> documents)
    as Hdocs.
  { unfold entries_of. by rewrite <- list_fmap_compose. }
  destruct (decide (documents = [])) as [->|Hne].
  { exists w0. by repeat split. }
  destruct (add_documents_run documents w0 Hne) as (w1 & _ & _ & _ & _ & ->).
  rewrite decide_True by done. unfold set_collection. eexists.
  split; [reflexivity|]. simpl.
  rewrite foldl_add_record_fresh.
  - done.
  - by rewrite entries_of_ids.
  - intros i _. apply not_elem_of_nil.
Qed.

End MoreAdding.

Lemma add_documents_fresh_keys_witness :
  let w := Sample.world [] Sample.online in
  exists w',
    VectorDatabase.add_documents (H := Sample.embedder) Sample.manual w
    = (inr tt, w')
    /\ collection w'
       = collection w
           ++ VectorDatabase.entries_of (H := Sample.embedder) Sample.manual
    /\ length (collection w')
       = (length (collection w) + length Sample.manual)%nat.
Proof.
  intros w.
  apply (add_documents_fresh_keys (H := Sample.embedder) Sample.manual w).
  - apply (bool_decide_unpack _). vm_compute. exact I.
  - intros doc _. apply not_elem_of_nil.
Defined.

Lemma add_documents_duplicate_batch_witness :
  let batch := [Sample.doc "a/readme.md" 0 1 "first";
                Sample.doc "a/readme.md" 0 1 "second"] in
  let w := Sample.world (Sample.entry_of <$> Sample.manual) Sample.online in
  exists w',
    VectorDatabase.add_documents (H := Sample.embedder) batch w
    = (inl DuplicateIDError, w')
    /\ collection w' = collection w
    /\ trace w'
       = trace w ++ [Encode (content <$> batch);
                     CollectionAdd
                       ((fun doc => VectorDatabase.make_id (metadata doc))
                          <$> batch)].
Proof.
  intros batch w.
  apply (add_documents_duplicate_batch (H := Sample.embedder) batch w).
  intros Hnodup. apply NoDup_cons in Hnodup as [Hnotin _].
  apply Hnotin. apply list_elem_of_here.
Defined.

Lemma clear_then_add_documents_witness :
  let w := Sample.world
             [Sample.entry_of (Sample.doc "old.txt" 0 1 "old text")]
             Sample.online in
  exists w',
    (_ ← VectorDatabase.clear_collection;
     VectorDatabase.add_documents (H := Sample.embedder) Sample.manual) w
    = (inr tt, w')
    /\ collection w'
       = VectorDatabase.entries_of (H := Sample.embedder) Sample.manual
    /\ entry_document <$> collection w' = content <$> Sample.manual.
Proof.
  intros w.
  apply (clear_then_add_documents (H := Sample.embedder) Sample.manual w).
  apply (bool_decide_unpack _). vm_compute. exact I.
Defined.

Section MoreSearch.
Context `{Embedder, Metric}.
Import VectorDatabase.

Lemma nearest_from_candidates c q n r :
  r ∈ Chroma.nearest c q n ->
  exists e, e ∈ c /\ r = (e, distance q (entry_embedding e)).
Proof.
  unfold Chroma.nearest. intros Hr.
  eapply elem_of_sublist in Hr; [|apply sublist_take].
  rewrite merge_sort_Permutation in Hr. unfold Chroma.candidates in Hr.
  apply list_elem_of_fmap in Hr as (e & -> & He). eauto.
Qed.

Lemma hits_of_contents found :
  hit_content <$> hits_of found = (fun r => entry_document r.1) <$> found.
Proof.
  unfold hits_of. rewrite fmap_imap, <- imap_const. by apply imap_ext.
Qed.

Lemma hits_of_metadata found :
  hit_metadata <$> hits_of found = (fun r => entry_metadata r.1) <$> found.
Proof.
  unfold hits_of. rewrite fmap_imap, <- imap_const. by apply imap_ext.
Qed.

(** X16. With a positive result count [k], [search] returns exactly
    [min k count] hits, each built from a stored record (its document,
    its metadata, and one minus its distance to the embedded query), and
    leaves the collection as it was. *)
Theorem search_hits_from_collection query n_results w :
  let k := default MAX_RETRIEVED_DOCS n_results in
  0 < k ->
  exists found w',
    search query n_results w = (inr found, w')
    /\ length found = Nat.min (Z.to_nat k) (length (collection w))
    /\ collection w' = collection w
    /\ Forall (fun hit =>
                 exists e,
                   e ∈ collection w
                   /\ hit_content hit = entry_document e
                   /\ hit_metadata hit = entry_metadata e
                   /\ similarity_score hit
                      = (1 - distance (encode query) (entry_embedding e))%Q)
              found.
Proof.
  intros k Hk.
  destruct (search_run query n_results w Hk) as (w' & Hrun & Hc & _).
  fold k in Hrun. eexists _, w'. split; [exact Hrun|].
  split; [by rewrite hits_of_length, nearest_length|]. split; [done|].
  apply Forall_forall. intros hit Hin. unfold hits_of in Hin.
  apply elem_of_lookup_imap_1 in Hin as (i & r & -> & Hr).
  apply list_elem_of_lookup_2, nearest_from_candidates in Hr as (e & He & ->).
  by exists e.
Qed.

(** X17. When the result count is at least the size of the collection,
    [search] returns every stored document exactly once, in some
    order. *)
Theorem search_returns_all query n_results w :
  let k := default MAX_RETRIEVED_DOCS n_results in
  0 < k ->
  (length (collection w) <= Z.to_nat k)%nat ->
  exists found w',
    search query n_results w = (inr found, w')
    /\ hit_content <$> found ≡ₚ entry_document <$> collection w
    /\ hit_metadata <$> found ≡ₚ entry_metadata <$> collection w.
Proof.
  intros k Hk Hall.
  destruct (search_run query n_results w Hk) as (w' & Hrun & _).
  fold k in Hrun. eexists _, w'. split; [exact Hrun|].
  assert (Chroma.nearest (collection w) (encode query) k
          ≡ₚ Chroma.candidates (collection w) (encode query)) as Hperm.
  { unfold Chroma.nearest. rewrite take_ge; [apply merge_sort_Permutation|].
    rewrite (Permutation_length (merge_sort_Permutation _ _)).
    unfold Chroma.candidates. by rewrite length_fmap. }
  rewrite hits_of_contents, hits_of_metadata, Hperm.
  unfold Chroma.candidates. by rewrite <- !list_fmap_compose.
Qed.

End MoreSearch.

Lemma search_hits_from_collection_witness :
  let w := Sample.world (Sample.entry_of <$> Sample.manual) Sample.online in
  exists found w',
    VectorDatabase.search (H := Sample.embedder) (H0 := Sample.metric)
      (u "What are extension modules?") (Some 1) w = (inr found, w')
    /\ length found = Nat.min (Z.to_nat 1) (length (collection w))
    /\ collection w' = collection w
    /\ Forall (fun hit =>
                 exists e,
                   e ∈ collection w
                   /\ hit_content hit = entry_document e
                   /\ hit_metadata hit = entry_metadata e
                   /\ similarity_score hit
                      = (1 - Sample.metric
                               (Sample.embedder
                                  (u "What are extension modules?"))
                               (entry_embedding e))%Q)
              found.
Proof.
  intros w.
  apply (search_hits_from_collection (H := Sample.embedder)
           (H0 := Sample.metric) (u "What are extension modules?")
           (Some 1) w).
  reflexivity.
Defined.

Lemma search_returns_all_witness :
  let w := Sample.world (Sample.entry_of <$> Sample.manual) Sample.online in
  exists found w',
    VectorDatabase.search (H := Sample.embedder) (H0 := Sample.metric)
      (u "What are extension modules?") None w = (inr found, w')
    /\ hit_content <$> found ≡ₚ entry_document <$> collection w
    /\ hit_metadata <$> found ≡ₚ entry_metadata <$> collection w.
Proof.
  intros w.
  apply (search_returns_all (H := Sample.embedder) (H0 := Sample.metric)
           (u "What are extension modules?") None w).
  - reflexivity.
  - vm_compute. lia.
Defined.

Section MoreSources.
Import VectorDatabase.

(** X18. [get_document_sources] returns the file names of the stored
    records, each once, in ascending order, and leaves the collection as
    it was. *)
Theorem get_document_sources_sorted w :
  exists sources w',
    get_document_sources w = (inr sources, w')
    /\ collection w' = collection w
    /\ Sorted str_le sources
    /\ NoDup sources
    /\ forall s,
        s ∈ sources <->
        exists e, e ∈ collection w /\ filename (entry_metadata e) = s.
Proof.
  unfold get_document_sources. run. eexists _, _. split; [reflexivity|].
  split; [done|]. unfold sorted.
  split; [apply Sorted_merge_sort; apply _|].
  split.
  - rewrite merge_sort_Permutation. apply NoDup_remove_dups.
  - intros s. rewrite merge_sort_Permutation, elem_of_remove_dups.
    rewrite list_elem_of_fmap.
    split; [intros (e & -> & He) | intros (e & He & <-)]; eauto.
Qed.

End MoreSources.

(** ** The completion backend: more on the two calls *)

Section MoreBackend.
Import RAGService.

Ltac finish :=
  run; eexists _, _; split; [reflexivity|]; simpl; rewrite <- ?app_assoc;
  repeat split; eauto.

(** X20. [_call_lmstudio] never raises, whatever the backend does.  It
    performs the health probe and at most one completion request, and
    changes neither the collection nor the model state of the service. *)
Theorem call_lmstudio_never_raises prompt model w :
  exists a w',
    _call_lmstudio prompt model w = (inr a, w')
    /\ collection w' = collection w
    /\ available_models w' = available_models w
    /\ current_model w' = current_model w
    /\ (trace w' = trace w ++ [HttpGet (u "/health")]
        \/ exists payload headers,
            trace w' = trace w ++ [HttpGet (u "/health");
                                   HttpPost (u "/chat/completions")
                                            payload headers]).
Proof.
  unfold _call_lmstudio, client_get, client_post. run.
  destruct (decide (u "/health" = u "/health")) as [_|?]; [|done].
  destruct (health (lmstudio w)) as [e|health_response]; run.
  { destruct e; finish. }
  destruct (decide (status health_response ≠ 200)) as [Hdown|Hup]; run;
    [finish|].
  set (payload := make_payload _ prompt).
  destruct (chat (lmstudio w) payload) as [e|response]; run.
  { destruct e; finish. }
  destruct (decide (status response = 200)) as [Hok|Hbad]; run; [|finish].
  destruct (json_completion response) as [e|completion]; run;
    [destruct e|]; finish.
Qed.

(** X21. When the health probe fails, no completion request is sent: the
    probe is the only call and the answer is a diagnostic. *)
Theorem call_lmstudio_unhealthy prompt model w :
  failed (health (lmstudio w)) ->
  exists a w',
    _call_lmstudio prompt model w = (inr a, w')
    /\ diagnostic a
    /\ trace w' = trace w ++ [HttpGet (u "/health")].
Proof.
  intros Hfail. unfold _call_lmstudio, client_get, client_post. run.
  destruct (decide (u "/health" = u "/health")) as [_|?]; [|done].
  destruct (health (lmstudio w)) as [e|health_response]; run.
  - destruct e; run; eexists _, _; (split; [reflexivity|]);
      (split; [|reflexivity]);
      lazymatch goal with
      | |- diagnostic LMSTUDIO_CONNECT_ERROR => exact diagnostic_connect
      | |- diagnostic (lmstudio_call_error _) => exact (diagnostic_call _)
      end.
  - simpl in Hfail. rewrite decide_True by done. run.
    eexists _, _. split; [reflexivity|]. split; [|reflexivity].
    exact diagnostic_unavailable.
Qed.

(** X22. With a healthy backend and a model named by the caller, the
    completion request carries that model and the prompt as the single
    user message, and the completion text of a successful response is
    returned unchanged. *)
Theorem call_lmstudio_explicit_model prompt m health_response response
    completion w :
  m <> [] ->
  health (lmstudio w) = inr health_response ->
  status health_response = 200 ->
  chat (lmstudio w) (make_payload m prompt) = inr response ->
  status response = 200 ->
  json_completion response = inr completion ->
  exists w',
    _call_lmstudio prompt (Some m) w = (inr completion, w')
    /\ posted_models (trace w') = posted_models (trace w) ++ [m]
    /\ exists headers,
        trace w' = trace w ++ [HttpGet (u "/health");
                               HttpPost (u "/chat/completions")
                                 {| model := m;
                                    messages := [(u "user", prompt)];
                                    temperature := 4 # 10;
                                    max_tokens := 1200;
                                    stream := false |} headers].
Proof.
  intros Hm Hhealth Hup Hchat Hok Hjson.
  unfold _call_lmstudio, client_get, client_post. run.
  destruct (decide (u "/health" = u "/health")) as [_|?]; [|done].
  rewrite Hhealth. run. rewrite decide_False by (by intros ?). run.
  assert (truthy (Some m) = true) as -> by (by destruct m).
  change (default [] (Some m)) with m.
  run. rewrite Hchat. run. rewrite decide_True by done.
  rewrite Hjson. run. eexists. split; [reflexivity|]. simpl.
  rewrite <- app_assoc. split; [|by eexists].
  unfold posted_models. by rewrite omap_app.
Qed.

(** What [_refresh_available_models] does, by the answer of [/models]. *)
Lemma refresh_available_models_run w :
  exists result w',
    _refresh_available_models w = (inr result, w')
    /\ collection w' = collection w
    /\ lmstudio w' = lmstudio w
    /\ trace w' = trace w ++ [HttpGet (u "/models")]
    /\ match models (lmstudio w) with
       | inr response =>
           if decide (status response = 200) then
             match json_model_ids response with
             | inr ids =>
                 result = ids
                 /\ available_models w' = ids
                 /\ current_model w'
                    = (if truthy (current_model w) then current_model w
                       else match ids with
                            | first :: _ => Some first
                            | [] => current_model w
                            end)
             | inl _ =>
                 result = []
                 /\ available_models w' = available_models w
                 /\ current_model w' = current_model w
             end
           else result = []
                /\ available_models w' = available_models w
                /\ current_model w' = current_model w
       | inl _ => result = []
                  /\ available_models w' = available_models w
                  /\ current_model w' = current_model w
       end.
Proof.
  unfold _refresh_available_models, client_get. run.
  destruct (decide (u "/models" = u "/health")) as [Habs|_].
  { vm_compute in Habs. discriminate. }
  destruct (decide (u "/models" = u "/models")) as [_|?]; [|done].
  destruct (models (lmstudio w)) as [e|response]; run.
  { eexists _, _. split; [reflexivity|]. by repeat split. }
  destruct (decide (status response = 200)) as [Hok|Hbad]; run;
    [|eexists _, _; split; [reflexivity|]; by repeat split].
  destruct (json_model_ids response) as [e|ids]; run.
  { eexists _, _. split; [reflexivity|]. by repeat split. }
  destruct (truthy (current_model w)) eqn:Hcur; run.
  { eexists _, _. split; [reflexivity|]. by repeat split. }
  destruct ids as [|first ids]; run;
    eexists _, _; (split; [reflexivity|]); by repeat split.
Qed.

(** X23. [_refresh_available_models] never raises.  When the [/models]
    call raises, answers with a status other than 200, or its body cannot
    be read, the result is the empty list and the remembered model list
    and current model stay as they were. *)
Theorem refresh_available_models_failure w :
  match models (lmstudio w) with
  | inl _ => True
  | inr response =>
      status response <> 200 \/ exists e, json_model_ids response = inl e
  end ->
  exists w',
    _refresh_available_models w = (inr [], w')
    /\ available_models w' = available_models w
    /\ current_model w' = current_model w
    /\ collection w' = collection w.
Proof.
  intros Hfail.
  destruct (refresh_available_models_run w)
    as (result & w' & Hrun & Hc & _ & _ & Hcase).
  destruct (models (lmstudio w)) as [e|response].
  - destruct Hcase as (-> & ? & ?). by exists w'.
  - destruct (decide (status response = 200)) as [Hok|Hbad].
    + destruct Hfail as [?|[e He]]; [done|]. rewrite He in Hcase.
      destruct Hcase as (-> & ? & ?). by exists w'.
    + destruct Hcase as (-> & ? & ?). by exists w'.
Qed.

(** X24. When [/models] answers 200 with a list of ids, the list is
    remembered and returned.  A current model that is already set is
    kept; otherwise the first id becomes the current model, and with an
    empty list the current model stays unset. *)
Theorem refresh_available_models_success response ids w :
  models (lmstudio w) = inr response ->
  status response = 200 ->
  json_model_ids response = inr ids ->
  exists w',
    _refresh_available_models w = (inr ids, w')
    /\ available_models w' = ids
    /\ (truthy (current_model w) = true -> current_model w' = current_model w)
    /\ (truthy (current_model w) = false ->
        current_model w' = match ids with
                           | first :: _ => Some first
                           | [] => current_model w
                           end).
Proof.
  intros Hmodels Hok Hids.
  destruct (refresh_available_models_run w)
    as (result & w' & Hrun & _ & _ & _ & Hcase).
  rewrite Hmodels, decide_True, Hids in Hcase by done.
  destruct Hcase as (-> & Hav & Hcur). exists w'.
  split; [done|]. split; [done|]. rewrite Hcur.
  by split; intros ->.
Qed.

End MoreBackend.

Lemma call_lmstudio_unhealthy_witness :
  let w := Sample.world [] Sample.offline in
  exists a w',
    RAGService._call_lmstudio (u "prompt") None w = (inr a, w')
    /\ RAGService.diagnostic a
    /\ trace w' = trace w ++ [HttpGet (u "/health")].
Proof.
  intros w.
  apply (call_lmstudio_unhealthy (u "prompt") None w). exact I.
Defined.

Lemma call_lmstudio_explicit_model_witness :
  let w := Sample.world [] Sample.online in
  exists w',
    RAGService._call_lmstudio (u "prompt") (Some (u "other-model")) w
    = (inr (u "answer"), w')
    /\ RAGService.posted_models (trace w')
       = RAGService.posted_models (trace w) ++ [u "other-model"]
    /\ exists headers,
        trace w' = trace w ++ [HttpGet (u "/health");
                               HttpPost (u "/chat/completions")
                                 {| model := u "other-model";
                                    messages := [(u "user", u "prompt")];
                                    temperature := 4 # 10;
                                    max_tokens := 1200;
                                    stream := false |} headers].
Proof.
  intros w.
  apply (call_lmstudio_explicit_model (u "prompt") (u "other-model")
           (Sample.ok "ok") (Sample.ok "answer") (u "answer") w);
    first [reflexivity | discriminate].
Defined.

Lemma refresh_available_models_failure_witness :
  let w := Sample.world [] Sample.offline in
  exists w',
    RAGService._refresh_available_models w = (inr [], w')
    /\ available_models w' = available_models w
    /\ current_model w' = current_model w
    /\ collection w' = collection w.
Proof.
  intros w. apply (refresh_available_models_failure w). exact I.
Defined.

Lemma refresh_available_models_success_witness :
  let w := Sample.world [] Sample.online in
  exists w',
    RAGService._refresh_available_models w = (inr [u "other-model"], w')
    /\ available_models w' = [u "other-model"]
    /\ (RAGService.truthy (current_model w) = true ->
        current_model w' = current_model w)
    /\ (RAGService.truthy (current_model w) = false ->
        current_model w' = Some (u "other-model")).
Proof.
  intros w.
  apply (refresh_available_models_success (Sample.ok "models")
           [u "other-model"] w); reflexivity.
Defined.

(** ** The query operation and the routes: more *)

Section MoreQuery.
Context `{Embedder, Metric, FloatFormat}.
Import RAGService.

(** A non-positive result count makes the collection, and with it
    [search], raise. *)
Lemma search_non_positive query (n : Z) w :
  n <= 0 ->
  exists w',
    VectorDatabase.search query (Some n) w = (inl (InvalidNResults n), w')
    /\ collection w' = collection w
    /\ lmstudio w' = lmstudio w
    /\ trace w' = trace w ++ [Encode [query]; CollectionQuery n].
Proof.
  intros Hn. unfold VectorDatabase.search. simpl default. run.
  unfold Chroma.query. rewrite decide_True by done. run.
  eexists. split; [reflexivity|]. simpl. by rewrite <- app_assoc.
Qed.

(** X19. A result count of zero or less makes both routes answer with
    HTTP 500 for any non-blank text: the collection rejects the count,
    and the backend is never contacted. *)
Theorem routes_reject_non_positive_count text (n : Z) w :
  strip text <> [] ->
  n <= 0 ->
  let r1 := Api.query_rag text (Some n) w in
  let r2 := Api.search_documents text n w in
  Api.raised_status r1.1 = Some 500
  /\ Api.raised_status r2.1 = Some 500
  /\ trace r1.2 = trace w ++ [Encode [text]; CollectionQuery n]
  /\ trace r2.2 = trace w ++ [Encode [text]; CollectionQuery n]
  /\ collection r1.2 = collection w
  /\ collection r2.2 = collection w.
Proof.
  intros Hblank Hn r1 r2. subst r1 r2.
  destruct (search_non_positive text n w Hn) as (w' & Hs & Hc & _ & Ht).
  unfold Api.query_rag, Api.search_documents, query.
  rewrite !decide_False by done. simpl default. run. rewrite Hs. run.
  by repeat split.
Qed.

Lemma search_keeps_collection query n_results w :
  collection (VectorDatabase.search query n_results w).2 = collection w
  /\ lmstudio (VectorDatabase.search query n_results w).2 = lmstudio w.
Proof.
  destruct (decide (0 < default MAX_RETRIEVED_DOCS n_results)) as [Hn|Hn].
  - destruct (search_run query n_results w Hn) as (w' & -> & ? & ? & _).
    done.
  - destruct n_results as [n|]; [|done]. simpl in Hn.
    destruct (search_non_positive query n w) as (w' & -> & ? & ? & _);
      [lia | done].
Qed.

(** X25. [query] only reads the collection: whatever the question, the
    result count and the backend, and whether it returns or raises, the
    collection afterwards is the collection before. *)
Theorem query_keeps_collection question n_docs w :
  collection (query question n_docs w).2 = collection w.
Proof.
  unfold query. run.
  pose proof (search_keeps_collection question
                (Some (default MAX_RETRIEVED_DOCS n_docs)) w) as [Hc _].
  destruct (VectorDatabase.search question
              (Some (default MAX_RETRIEVED_DOCS n_docs)) w)
    as [[e|relevant_docs] w1]; simpl in Hc; [done|].
  destruct (decide (relevant_docs = [])); [done|].
  set (prompt := _build_prompt _ _).
  destruct (call_lmstudio_run prompt None w1) as (a & w2 & -> & Hc2 & _).
  simpl. congruence.
Qed.



(** X29. For a non-blank query and a positive result count, the
    [/search] route echoes the query and returns [min k count] results;
    [total_found] is their number and every content is cut to at most
    300 characters plus the three dots. *)
Theorem search_documents_returns_results query (max_docs : Z) w :
  strip query <> [] ->
  0 < max_docs ->
  exists response w',
    Api.search_documents query max_docs w = (inr response, w')
    /\ Api.search_query response = query
    /\ Api.total_found response = Z.of_nat (length (Api.results response))
    /\ length (Api.results response)
       = Nat.min (Z.to_nat max_docs) (length (collection w))
    /\ Forall (fun r => (length (Api.result_content r) <= 303)%nat)
              (Api.results response)
    /\ collection w' = collection w.
Proof.
  intros Hblank Hk.
  unfold Api.search_documents. rewrite decide_False by done.
  destruct (search_run query (Some max_docs) w Hk) as (w1 & Hs & Hc1 & _).
  simpl in Hs. run. rewrite Hs. run.
  eexists _, w1. split; [reflexivity|]. simpl.
  rewrite length_fmap, hits_of_length, nearest_length.
  split; [done|]. split; [unfold len; by rewrite hits_of_length, nearest_length|].
  split; [done|]. split; [|done].
  apply Forall_fmap, Forall_forall. intros hit _. simpl.
  case_decide; [|lia]. rewrite length_app, length_take.
  change (length (u "...")) with 3%nat. lia.
Qed.

End MoreQuery.

Section MoreStatus.
Import RAGService.


End MoreStatus.

Section MoreIngestion.
Context `{TextSplitter, PdfReader, Pathlib, FileSystem, Embedder}.
Import DocumentProcessor VectorDatabase.

(** The part of the task after the optional clearing. *)
Lemma ingest_run directory w0 :
  exists documents r w',
    (process_directory directory w0).1 = inr documents
    /\ (documents ← process_directory directory;
        if decide (documents = []) then mret tt
        else add_documents documents) w0 = (r, w')
    /\ (NoDup ((fun doc => make_id (metadata doc)) <$> documents) ->
        r = inr tt
        /\ collection w'
           = foldl Chroma.add_record (collection w0) (entries_of documents))
    /\ (~ NoDup ((fun doc => make_id (metadata doc)) <$> documents) ->
        r = inl DuplicateIDError /\ collection w' = collection w0).
Proof.
  unfold process_directory. run.
  destruct (process_files_run (rglob (default DOCS_DIR directory))
              (rglob (default DOCS_DIR directory)) [] w0)
    as (documents & w1 & Hrun & _ & _ & _ & Hc1 & _); [done | constructor|].
  rewrite Hrun. exists documents.
  destruct (decide (documents = [])) as [->|Hne].
  { eexists _, w1. split; [done|]. split; [reflexivity|]. split.
    - intros _. by split.
    - intros Hdup. destruct Hdup. constructor. }
  destruct (add_documents_run documents w1 Hne)
    as (w2 & _ & Hc2 & _ & _ & ->).
  destruct (decide (NoDup _)) as [Hnodup|Hdup].
  - unfold set_collection. eexists _, _. split; [done|].
    split; [reflexivity|]. split; [|done]. intros _. simpl.
    by rewrite Hc1.
  - eexists _, w2. split; [done|]. split; [reflexivity|]. split; [done|].
    intros _. split; [done|]. by rewrite Hc2.
Qed.

(** X30. The ingestion task processes the directory and adds what it
    found.  If the chunk ids are pairwise distinct the task succeeds:
    after a clearing run the collection holds exactly one record per
    chunk, and without clearing every old record is still there.  If two
    chunks share an id (two files of the same name) the task raises, and
    after a clearing run the collection is left empty. *)
Theorem process_docs_task_effect directory (clear_existing : bool) w :
  let start := if clear_existing then (clear_collection w).2 else w in
  exists documents r w',
    (process_directory directory start).1 = inr documents
    /\ Api.process_docs_task directory clear_existing w = (r, w')
    /\ (NoDup ((fun doc => make_id (metadata doc)) <$> documents) ->
        r = inr tt
        /\ if clear_existing then collection w' = entries_of documents
           else collection w `prefix_of` collection w')
    /\ (~ NoDup ((fun doc => make_id (metadata doc)) <$> documents) ->
        r = inl DuplicateIDError
        /\ collection w' = if clear_existing then [] else collection w).
Proof.
  intros start.
  destruct (ingest_run directory start)
    as (documents & r & w' & Hdocs & Hrun & Hok & Hdup).
  exists documents, r, w'. split; [exact Hdocs|].
  assert (Api.process_docs_task directory clear_existing w = (r, w')) as ->.
  { rewrite <- Hrun. subst start. unfold Api.process_docs_task.
    destruct clear_existing; unfold clear_collection; by run. }
  split; [done|]. subst start. split.
  - intros Hnodup. destruct (Hok Hnodup) as [-> ->]. split; [done|].
    destruct clear_existing; [|apply foldl_add_record_prefix].
    unfold clear_collection. run.
    rewrite foldl_add_record_fresh; [done | by rewrite entries_of_ids|].
    intros i _. apply not_elem_of_nil.
  - intros Hnot. destruct (Hdup Hnot) as [-> ->]. split; [done|].
    by destruct clear_existing.
Qed.

End MoreIngestion.

(** Two files named [readme.md] get the same id for their first chunk:
    the clearing run empties the collection and then fails to refill
    it. *)
Example process_docs_task_same_name :
  let w := Sample.twin_world (Sample.entry_of <$> Sample.manual) in
  let r := Api.process_docs_task
             (H := Sample.whole) (H0 := Sample.no_pdf)
             (H1 := Sample.named_paths) (H2 := Sample.twin_tree)
             (H3 := Sample.embedder) None true w in
  r.1 = inl DuplicateIDError /\ collection r.2 = [].
Proof. split; vm_compute; reflexivity. Qed.

Lemma routes_reject_non_positive_count_witness :
  let w := Sample.world (Sample.entry_of <$> Sample.manual) Sample.online in
  let r1 := Api.query_rag (H := Sample.embedder) (H0 := Sample.metric)
              (H1 := Sample.fmt) (u "modules") (Some 0) w in
  let r2 := Api.search_documents (H := Sample.embedder) (H0 := Sample.metric)
              (u "modules") 0 w in
  Api.raised_status r1.1 = Some 500
  /\ Api.raised_status r2.1 = Some 500
  /\ trace r1.2 = trace w ++ [Encode [u "modules"]; CollectionQuery 0]
  /\ trace r2.2 = trace w ++ [Encode [u "modules"]; CollectionQuery 0]
  /\ collection r1.2 = collection w
  /\ collection r2.2 = collection w.
Proof.
  intros w.
  apply (routes_reject_non_positive_count (H := Sample.embedder)
           (H0 := Sample.metric) (H1 := Sample.fmt) (u "modules") 0 w).
  - vm_compute. discriminate.
  - reflexivity.
Defined.

Lemma query_empty_collection_witness :
  let w := Sample.world [] Sample.offline in
  exists w',
    RAGService.query (H := Sample.embedder) (H0 := Sample.metric)
      (H1 := Sample.fmt) (u "modules") None w
    = (inr (<["answer" := VStr RAGService.NO_RELEVANT_INFORMATION]>
            (<["sources" := VList []]>
            (<["query" := VStr (u "modules")]> ∅))), w')
    /\ trace w' = trace w ++ [Encode [u "modules"];
                              CollectionQuery
                                (default MAX_RETRIEVED_DOCS None)].
Proof.
  intros w.
  apply (query_empty_collection (H := Sample.embedder) (H0 := Sample.metric)
           (H1 := Sample.fmt) (u "modules") None w); reflexivity.
Defined.


Lemma search_documents_returns_results_witness :
  let w := Sample.world (Sample.entry_of <$> Sample.manual) Sample.online in
  exists response w',
    Api.search_documents (H := Sample.embedder) (H0 := Sample.metric)
      (u "modules") 1 w = (inr response, w')
    /\ Api.search_query response = u "modules"
    /\ Api.total_found response = Z.of_nat (length (Api.results response))
    /\ length (Api.results response)
       = Nat.min (Z.to_nat 1) (length (collection w))
    /\ Forall (fun r => (length (Api.result_content r) <= 303)%nat)
              (Api.results response)
    /\ collection w' = collection w.
Proof.
  intros w.
  apply (search_documents_returns_results (H := Sample.embedder)
           (H0 := Sample.metric) (u "modules") 1 w).
  - vm_compute. discriminate.
  - reflexivity.
Defined.
